(** * Mancala (Kalah variant): the board engine of [Mancala.py]

    A shallow embedding of the rules engine: [init_board], [is_game_over],
    [make_move], [collect_remaining_stones] and [get_winner].

    The board is a Python list of integers: a [list Z], read and written by
    index.  Reading or writing outside the list raises [IndexError] in Python;
    the embedding keeps that outcome explicit.  The [while] loop of
    [make_move] is iterated with a step budget, and running out of budget is
    a third outcome, [Diverge], which the theorems below show never
    happens.

    Python mutates the list in place and returns the same object; here the
    returned list is the state of that object after the call. *)

From Stdlib Require Import ZArith Lia Bool.
From stdpp Require Import base list.

Open Scope Z_scope.

(** ** Outcomes of a Python call *)

Inductive outcome (A : Type) : Type :=
  | Return (a : A)
  | IndexError
  | Diverge.

Arguments Return {A} a.
Arguments IndexError {A}.
Arguments Diverge {A}.

(** Sequencing: the first raised error or divergence ends the call. *)
Definition bind {A B : Type} (m : outcome A) (f : A -> outcome B) : outcome B :=
  match m with
  | Return a => f a
  | IndexError => IndexError
  | Diverge => Diverge
  end.

Notation "x <- m ;; k" := (bind m (fun x => k))
  (at level 100, m at next level, right associativity).

(** ** Python lists of integers *)

Module Py.

(** [sum(l)] *)
Definition sum (l : list Z) : Z := foldr Z.add 0 l.

(** [l[lo:hi]] for constant bounds [0 <= lo], [0 <= hi]. *)
Definition slice (l : list Z) (lo hi : nat) : list Z := drop lo (take hi l).

(** The position an index [i] denotes in [l]: negative indices count from
    the end, anything outside the list is an error. *)
Definition position (l : list Z) (i : Z) : option nat :=
  let n := Z.of_nat (length l) in
  let j := if i <? 0 then i + n else i in
  if (0 <=? j) && (j <? n) then Some (Z.to_nat j) else None.

(** [l[i]] *)
Definition getitem (l : list Z) (i : Z) : outcome Z :=
  match position l i with
  | Some k =>
      match l !! k with
      | Some x => Return x
      | None => IndexError
      end
  | None => IndexError
  end.

(** [l[i] = v] *)
Definition setitem (l : list Z) (i : Z) (v : Z) : outcome (list Z) :=
  match position l i with
  | Some k => Return (<[k := v]> l)
  | None => IndexError
  end.

(** [range(lo, hi)] *)
Definition range (lo hi : Z) : list Z := seqZ lo (hi - lo).

(** [i in range(lo, hi)] *)
Definition in_range (i lo hi : Z) : bool := (lo <=? i) && (i <? hi).

End Py.

(** Total read used in statements: the entry at index [i], 0 outside. *)
Definition at_ (b : list Z) (i : Z) : Z :=
  if i <? 0 then 0 else nth (Z.to_nat i) b 0.

(** ** The engine *)

(** [init_board()] *)
Definition init_board : list Z :=
  let board := replicate 14 4 in
  let board := <[6%nat := 0]> board in
  let board := <[13%nat := 0]> board in
  board.

(** [is_game_over(board)] *)
Definition is_game_over (board : list Z) : bool :=
  if (Py.sum (Py.slice board 0 6) =? 0) || (Py.sum (Py.slice board 7 13) =? 0)
  then true
  else false.

(** The state of the distribution loop: the board, [index] and [stones]. *)
Definition loop_state : Type := list Z * Z * Z.

(** One pass through the body of [while stones > 0]. *)
Definition loop_body (player : Z) (st : loop_state) : outcome loop_state :=
  let '(board, index, stones) := st in
  let index := (index + 1) mod 14 in
  if (player =? 1) && (index =? 13) then Return (board, index, stones)
  else if (player =? 2) && (index =? 6) then Return (board, index, stones)
  else
    x <- Py.getitem board index ;;
    board <- Py.setitem board index (x + 1) ;;
    Return (board, index, stones - 1).

(** [while stones > 0: ...], at most [fuel] passes. *)
Fixpoint while_loop (fuel : nat) (player : Z) (st : loop_state)
  : outcome loop_state :=
  if st.2 >? 0 then
    match fuel with
    | O => Diverge
    | S fuel' => st' <- loop_body player st ;; while_loop fuel' player st'
    end
  else Return st.

(** Passes allowed for a pit of [stones] stones. *)
Definition loop_budget (stones : Z) : nat := Z.to_nat (2 * stones).

(** Lines 70-82 of [make_move]: empty the pit and distribute its stones.
    Returns the board and [index], the landing position of the last stone. *)
Definition sow (board : list Z) (pit player : Z) : outcome (list Z * Z) :=
  stones <- Py.getitem board pit ;;
  board <- Py.setitem board pit 0 ;;
  st <- while_loop (loop_budget stones) player (board, pit, stones) ;;
  Return (st.1.1, st.1.2).

(** The validation at the head of [make_move]: [true] when the move is
    refused. *)
Definition refused (board : list Z) (pit player : Z) : outcome bool :=
  if player =? 1 then
    if (pit <? 0) || (pit >? 5) then Return true
    else x <- Py.getitem board pit ;; Return (x =? 0)
  else
    if (pit <? 7) || (pit >? 12) then Return true
    else x <- Py.getitem board pit ;; Return (x =? 0).

(** The body shared by the two capture branches: [store] is 6 or 13. *)
Definition capture_into (store : Z) (board : list Z) (index : Z)
  : outcome (list Z) :=
  let opposite := 12 - index in
  y <- Py.getitem board opposite ;;
  if y >? 0 then
    s <- Py.getitem board store ;;
    y <- Py.getitem board opposite ;;
    board <- Py.setitem board store (s + (y + 1)) ;;
    board <- Py.setitem board index 0 ;;
    board <- Py.setitem board opposite 0 ;;
    Return board
  else Return board.

(** Lines 89-101 of [make_move]: the capture rule. *)
Definition capture (board : list Z) (index player : Z) : outcome (list Z) :=
  c1 <- (if (player =? 1) && Py.in_range index 0 6
        then x <- Py.getitem board index ;; Return (x =? 1)
        else Return false) ;;
  if c1 then capture_into 6 board index
  else
    c2 <- (if (player =? 2) && Py.in_range index 7 13
          then x <- Py.getitem board index ;; Return (x =? 1)
          else Return false) ;;
    if c2 then capture_into 13 board index
    else Return board.

(** [make_move(board, pit, player)]: [(valid_move, board, extra_turn)]. *)
Definition make_move (board : list Z) (pit player : Z)
  : outcome (bool * list Z * bool) :=
  bad <- refused board pit player ;;
  if bad then Return (false, board, false)
  else
    r <- sow board pit player ;;
    let '(board, index) := r in
    let extra_turn :=
      if ((player =? 1) && (index =? 6)) || ((player =? 2) && (index =? 13))
      then true else false in
    board <- capture board index player ;;
    Return (true, board, extra_turn).

(** [for i in idxs: board[i] = 0] *)
Fixpoint zero_pits (idxs : list Z) (board : list Z) : outcome (list Z) :=
  match idxs with
  | [] => Return board
  | i :: rest => board <- Py.setitem board i 0 ;; zero_pits rest board
  end.

(** [collect_remaining_stones(board)] *)
Definition collect_remaining_stones (board : list Z) : outcome (list Z) :=
  s <- Py.getitem board 6 ;;
  board <- Py.setitem board 6 (s + Py.sum (Py.slice board 0 6)) ;;
  s <- Py.getitem board 13 ;;
  board <- Py.setitem board 13 (s + Py.sum (Py.slice board 7 13)) ;;
  board <- zero_pits (Py.range 0 6) board ;;
  board <- zero_pits (Py.range 7 13) board ;;
  Return board.

(** [get_winner(board)]: 1, 2, or 0 for a tie. *)
Definition get_winner (board : list Z) : outcome Z :=
  s1 <- Py.getitem board 6 ;;
  s2 <- Py.getitem board 13 ;;
  if s1 >? s2 then Return 1
  else
    t2 <- Py.getitem board 13 ;;
    t1 <- Py.getitem board 6 ;;
    if t2 >? t1 then Return 2 else Return 0.

(** ** Notions used in the statements and proofs *)

(** [board[i] = v] on a board where [i] is in range. *)
Definition upd (b : list Z) (i v : Z) : list Z := <[Z.to_nat i := v]> b.

(** Every count is at least 0. *)
Definition nonneg (b : list Z) : Prop := Forall (fun x => 0 <= x) b.

(** The opponent's store, seen from [player]: the position a pass skips. *)
Definition skips (player index : Z) : bool :=
  ((player =? 1) && (index =? 13)) || ((player =? 2) && (index =? 6)).

(** What one pass of the loop does when no read or write can fail. *)
Definition pass (player : Z) (st : loop_state) : loop_state :=
  let '(b, i, s) := st in
  let j := (i + 1) mod 14 in
  if skips player j then (b, j, s)
  else (upd b j (at_ b j + 1), j, s - 1).

(** The number of deposits made from position [i] before the loop first
    reaches the store it skips. *)
Definition gap (player i : Z) : Z :=
  if player =? 1 then (12 - i) mod 14
  else if player =? 2 then (5 - i) mod 14
  else 0.

(** The number of passes the loop makes from position [i] with [s] stones:
    one per stone, and one more for each visit of the skipped store, which
    comes after [gap] deposits and then after every 13 deposits. *)
Definition passes_needed (player i s : Z) : Z :=
  if s <=? 0 then 0
  else if (player =? 1) || (player =? 2)
       then s + (s + 12 - gap player i) / 13
       else s.

(** The validation, with the read of [board[pit]] resolved. *)
Definition is_invalid (b : list Z) (pit player : Z) : bool :=
  if player =? 1 then (pit <? 0) || (pit >? 5) || (at_ b pit =? 0)
  else (pit <? 7) || (pit >? 12) || (at_ b pit =? 0).

(** The board after a capture credited to [store]. *)
Definition captured (store : Z) (b : list Z) (index : Z) : list Z :=
  let opposite := 12 - index in
  let b1 := upd b store (at_ b store + (at_ b opposite + 1)) in
  let b2 := upd b1 index 0 in
  upd b2 opposite 0.

(** The capture rule, with every read and write resolved. *)
Definition capture_result (b : list Z) (index player : Z) : list Z :=
  if (player =? 1) && Py.in_range index 0 6 && (at_ b index =? 1) then
    if at_ b (12 - index) >? 0 then captured 6 b index else b
  else if (player =? 2) && Py.in_range index 7 13 && (at_ b index =? 1) then
    if at_ b (12 - index) >? 0 then captured 13 b index else b
  else b.

(** The extra-turn test. *)
Definition extra_turn_flag (index player : Z) : bool :=
  ((player =? 1) && (index =? 6)) || ((player =? 2) && (index =? 13)).

(** Stones in hand plus stones on the board stay [total]. *)
Definition conserves (total : Z) (st : loop_state) : Prop :=
  0 <= st.2 /\ Py.sum st.1.1 + st.2 = total.

(** The capture rule fires for [player] at [idx] on [bs]. *)
Definition fires (bs : list Z) (idx player store : Z) : Prop :=
  (store = 6 /\ player = 1 /\ 0 <= idx <= 5 \/
   store = 13 /\ player = 2 /\ 7 <= idx <= 12) /\
  at_ bs idx = 1 /\ at_ bs (12 - idx) > 0.

(** A game played from board [b]: any calls of [make_move] and
    [collect_remaining_stones], each on the board the previous one left. *)
Inductive plays (b : list Z) : list Z -> Prop :=
  | plays_none : plays b b
  | plays_move b1 pit player v b2 e :
      plays b b1 -> make_move b1 pit player = Return (v, b2, e) ->
      plays b b2
  | plays_collect b1 b2 :
      plays b b1 -> collect_remaining_stones b1 = Return b2 ->
      plays b b2.

(** The move is invalid, in the words of the rules: for Player 1 the pit is
    outside 0..5 or empty, for Player 2 it is outside 7..12 or empty. *)
Definition invalid_move (b : list Z) (pit player : Z) : Prop :=
  player = 1 /\ (pit < 0 \/ 5 < pit \/ at_ b pit = 0) \/
  player = 2 /\ (pit < 7 \/ 12 < pit \/ at_ b pit = 0).

(** The landing position is one of [player]'s own pits. *)
Definition own_pit (player index : Z) : Prop :=
  player = 1 /\ 0 <= index <= 5 \/ player = 2 /\ 7 <= index <= 12.

(** The store of [player]. *)
Definition own_store (player : Z) : Z := if player =? 1 then 6 else 13.

(** C3 as the rules' example states it: with pit 1 empty, 4 stones in pit 0
    and 5 in pit 11, Player 1 playing pit 0 lands on pit 1, after which
    pits 1 and 11 are 0 and store 6 has gained 6. *)
Definition capture_example_as_stated (b : list Z) : Prop :=
  at_ b 1 = 0 -> at_ b 0 = 4 -> at_ b 11 = 5 ->
  exists bs v b' e,
    sow b 0 1 = Return (bs, 1) /\
    make_move b 0 1 = Return (v, b', e) /\
    at_ b' 1 = 0 /\ at_ b' 11 = 0 /\ at_ b' 6 = at_ b 6 + 6.

(** Sowing in the plain sense: [n] stones, one into each successive position
    after [i] around the 14 positions, none skipped.  Returns the board and
    the last position. *)
Fixpoint sow_every_position (n : nat) (b : list Z) (i : Z) : list Z * Z :=
  match n with
  | O => (b, i)
  | S n' =>
      let j := (i + 1) mod 14 in
      sow_every_position n' (upd b j (at_ b j + 1)) j
  end.

(** ** The driver: [main] without its printing

    [input()] is a list of lines still to be read; a line is a number or
    text that [int] refuses with [ValueError].  Reading past the last line
    raises [EOFError], which [main] does not catch.  [print_board] and the
    messages only read the board and are left out. *)

Inductive line : Type :=
  | Number (pit : Z)
  | NotANumber.

Inductive run (A : Type) : Type :=
  | Finished (a : A)
  | RaisedEOFError
  | RaisedIndexError
  | NoTermination.

Arguments Finished {A} a.
Arguments RaisedEOFError {A}.
Arguments RaisedIndexError {A}.
Arguments NoTermination {A}.

(** [while not valid_move: ...] of [main]: reads lines until [make_move]
    accepts one; returns the board, [extra_turn] and the lines left. *)
Fixpoint ask_move (lines : list line) (board : list Z) (player : Z)
  : run (list Z * bool * list line) :=
  match lines with
  | [] => RaisedEOFError
  | NotANumber :: rest => ask_move rest board player
  | Number pit :: rest =>
      if (player =? 1) && ((pit <? 0) || (pit >? 5))
      then ask_move rest board player
      else if (player =? 2) && ((pit <? 7) || (pit >? 12))
      then ask_move rest board player
      else
        match make_move board pit player with
        | Return (valid_move, board, extra_turn) =>
            if negb valid_move then ask_move rest board player
            else Finished (board, extra_turn, rest)
        | IndexError => RaisedIndexError
        | Diverge => NoTermination
        end
  end.

(** [while not is_game_over(board): ...] of [main], at most [fuel] turns;
    returns the board at the end of the game. *)
Fixpoint game_loop (fuel : nat) (lines : list line) (board : list Z)
  (player : Z) : run (list Z) :=
  if negb (is_game_over board) then
    match fuel with
    | O => NoTermination
    | S fuel' =>
        match ask_move lines board player with
        | Finished (board, extra_turn, rest) =>
            if extra_turn then game_loop fuel' rest board player
            else game_loop fuel' rest board (if player =? 1 then 2 else 1)
        | RaisedEOFError => RaisedEOFError
        | RaisedIndexError => RaisedIndexError
        | NoTermination => NoTermination
        end
    end
  else Finished board.

(** [main()]: the final board and the winner (0 for a tie).  Every turn
    reads at least one line, so there are no more turns than lines. *)
Definition main (lines : list line) : run (list Z * Z) :=
  let board := init_board in
  let player := 1 in
  match game_loop (S (length lines)) lines board player with
  | Finished board =>
      match collect_remaining_stones board with
      | Return board =>
          match get_winner board with
          | Return winner => Finished (board, winner)
          | IndexError => RaisedIndexError
          | Diverge => NoTermination
          end
      | IndexError => RaisedIndexError
      | Diverge => NoTermination
      end
  | RaisedEOFError => RaisedEOFError
  | RaisedIndexError => RaisedIndexError
  | NoTermination => NoTermination
  end.

(** ** Closed forms for sowing *)

(** The place of position [j] along [player]'s sowing round, counted so that
    the store the player skips comes last, at 13. *)
Definition rank (player j : Z) : Z :=
  if player =? 1 then j else (j + 7) mod 14.

(** Where the last of [stones] stones sown from [pit] lands. *)
Definition landing (player pit stones : Z) : Z :=
  if player =? 1 then (pit + stones) mod 13
  else ((pit - 7 + stones) mod 13 + 7) mod 14.

(** How many of [stones] stones sown from [pit] fall on position [j]. *)
Definition deposits (player pit stones j : Z) : Z :=
  if skips player j then 0
  else (stones + 12 - (rank player j - rank player pit - 1) mod 13) / 13.

(** What the distribution loop keeps, [stones - s] stones having been
    deposited. *)
Definition sow_inv (player pit stones : Z) (b : list Z) (st : loop_state)
  : Prop :=
  let d := stones - st.2 in
  let r := rank player st.1.2 in
  0 <= st.2 <= stones /\ 0 <= st.1.2 < 14 /\
  (r = 13 -> 0 < st.2) /\
  (if r =? 13 then 12 else r) = (rank player pit + d) mod 13 /\
  forall j, 0 <= j < 14 ->
    at_ st.1.1 j = (if j =? pit then 0 else at_ b j) +
                   deposits player pit d j.

(** A board of a game: 14 non-negative counts that add up to 48. *)
Definition game_board (b : list Z) : Prop :=
  length b = 14%nat /\ nonneg b /\ Py.sum b = 48.

(** A line that some player can play: a number in 0..5 or in 7..12. *)
Definition playable (l : line) : bool :=
  match l with
  | Number pit => ((0 <=? pit) && (pit <=? 5)) || ((7 <=? pit) && (pit <=? 12))
  | NotANumber => false
  end.

(** The board seen from the other side of the table: position [j] of the
    turned board is position [j + 7] (mod 14) of the board. *)
Definition turn_board (b : list Z) : list Z := drop 7 b ++ take 7 b.

(** Neither store has lost a stone. *)
Definition stores_kept (b : list Z) (st : loop_state) : Prop :=
  at_ b 6 <= at_ st.1.1 6 /\ at_ b 13 <= at_ st.1.1 13.

(** * Proofs *)

(** ** Reading and writing a board in range *)

Section ListFacts.

Implicit Types (l b : list Z) (i j v : Z) (k : nat).

Lemma position_in l i :
  0 <= i < Z.of_nat (length l) -> Py.position l i = Some (Z.to_nat i).
Proof.
  intros Hi. unfold Py.position.
  destruct (Z.ltb_spec i 0); [lia|].
  destruct (Z.leb_spec 0 i); [|lia].
  destruct (Z.ltb_spec i (Z.of_nat (length l))); [reflexivity|lia].
Qed.

Lemma getitem_in l i :
  0 <= i < Z.of_nat (length l) -> Py.getitem l i = Return (at_ l i).
Proof.
  intros Hi. unfold Py.getitem, at_. rewrite position_in by assumption.
  destruct (Z.ltb_spec i 0); [lia|]. rewrite nth_lookup.
  destruct (l !! Z.to_nat i) eqn:E; [reflexivity|].
  apply lookup_ge_None in E. lia.
Qed.

Lemma setitem_in l i v :
  0 <= i < Z.of_nat (length l) -> Py.setitem l i v = Return (upd l i v).
Proof.
  intros Hi. unfold Py.setitem, upd. now rewrite position_in.
Qed.

Lemma length_upd l i v : length (upd l i v) = length l.
Proof. apply length_insert. Qed.

Lemma at_upd l i j v :
  0 <= i < Z.of_nat (length l) -> 0 <= j ->
  at_ (upd l i v) j = if j =? i then v else at_ l j.
Proof.
  intros Hi Hj. unfold at_, upd. destruct (Z.ltb_spec j 0); [lia|].
  rewrite !nth_lookup.
  destruct (Z.eqb_spec j i) as [->|Hne].
  - rewrite list_lookup_insert_eq by lia. reflexivity.
  - rewrite list_lookup_insert_ne by lia. reflexivity.
Qed.

Lemma at_upd_ne l i j v :
  0 <= i < Z.of_nat (length l) -> 0 <= j -> j <> i ->
  at_ (upd l i v) j = at_ l j.
Proof.
  intros Hi Hj Hne. rewrite at_upd by lia.
  destruct (Z.eqb_spec j i); [contradiction|reflexivity].
Qed.

Lemma sum_insert l k v :
  (k < length l)%nat -> Py.sum (<[k := v]> l) = Py.sum l - nth k l 0 + v.
Proof.
  revert k. induction l as [|x l IH]; intros k Hk; simpl in Hk; [lia|].
  destruct k as [|k]; simpl.
  - lia.
  - rewrite IH by lia. lia.
Qed.

Lemma sum_upd l i v :
  0 <= i < Z.of_nat (length l) ->
  Py.sum (upd l i v) = Py.sum l - at_ l i + v.
Proof.
  intros Hi. unfold upd, at_. destruct (Z.ltb_spec i 0); [lia|].
  apply sum_insert. lia.
Qed.

Lemma nonneg_upd l i v : nonneg l -> 0 <= v -> nonneg (upd l i v).
Proof. intros Hl Hv. unfold nonneg, upd. now apply Forall_insert. Qed.

Lemma nonneg_at l i : nonneg l -> 0 <= at_ l i.
Proof.
  intros Hl. unfold at_. destruct (i <? 0); [lia|]. rewrite nth_lookup.
  destruct (l !! Z.to_nat i) eqn:E; simpl; [|lia].
  unfold nonneg in Hl. rewrite Forall_lookup in Hl. eauto.
Qed.

End ListFacts.

(** ** The distribution loop on a 14-position board *)

Section Loop.

Variable player : Z.

Lemma loop_body_pass b i s :
  length b = 14%nat ->
  loop_body player (b, i, s) = Return (pass player (b, i, s)).
Proof.
  intros Hb. unfold loop_body, pass, skips.
  assert (Hj : 0 <= (i + 1) mod 14 < 14) by (apply Z.mod_pos_bound; lia).
  destruct ((player =? 1) && ((i + 1) mod 14 =? 13)); [reflexivity|].
  destruct ((player =? 2) && ((i + 1) mod 14 =? 6)); [reflexivity|].
  simpl. rewrite getitem_in by lia. simpl.
  rewrite setitem_in by lia. reflexivity.
Qed.

Lemma pass_length st :
  length (pass player st).1.1 = length st.1.1.
Proof.
  destruct st as [[b i] s]. unfold pass.
  destruct (skips player ((i + 1) mod 14)); simpl; [reflexivity|].
  apply length_upd.
Qed.

Lemma pass_index st : 0 <= (pass player st).1.2 < 14.
Proof.
  destruct st as [[b i] s]. unfold pass.
  destruct (skips player ((i + 1) mod 14)); simpl;
    apply Z.mod_pos_bound; lia.
Qed.

(** Hoare rule for the loop: a property kept by every pass made with
    stones in hand holds when the loop returns, with no stone left. *)
Lemma while_loop_inv (P : loop_state -> Prop) :
  (forall st, length st.1.1 = 14%nat -> st.2 > 0 -> P st ->
              P (pass player st)) ->
  forall fuel st st',
    length st.1.1 = 14%nat -> P st ->
    while_loop fuel player st = Return st' ->
    P st' /\ length st'.1.1 = 14%nat /\ st'.2 <= 0.
Proof.
  intros Hstep. induction fuel as [|fuel IH]; intros st st' Hlen HP Hrun.
  - simpl in Hrun. destruct (Z.gtb_spec st.2 0); [discriminate|].
    injection Hrun as <-. auto.
  - simpl in Hrun. destruct (Z.gtb_spec st.2 0) as [Hpos|Hle].
    + destruct st as [[b i] s]. rewrite loop_body_pass in Hrun by exact Hlen.
      cbn [bind] in Hrun. eapply IH; [| |exact Hrun].
      * rewrite pass_length. exact Hlen.
      * apply Hstep; [exact Hlen|simpl in *; lia|exact HP].
    + injection Hrun as <-. auto.
Qed.

Lemma passes_needed_pass b i s :
  0 <= i < 14 -> s > 0 ->
  let st' := pass player (b, i, s) in
  passes_needed player st'.1.2 st'.2 + 1 = passes_needed player i s.
Proof.
  intros Hi Hs. unfold pass, skips, passes_needed, gap.
  assert (Hcases : i = 0 \/ i = 1 \/ i = 2 \/ i = 3 \/ i = 4 \/ i = 5 \/
                   i = 6 \/ i = 7 \/ i = 8 \/ i = 9 \/ i = 10 \/ i = 11 \/
                   i = 12 \/ i = 13) by lia.
  destruct (Z.eqb_spec player 1) as [->|H1];
    [|destruct (Z.eqb_spec player 2) as [->|H2]];
    repeat (destruct Hcases as [->|Hcases]); try subst i;
    cbn [orb andb Z.eqb fst snd]; simpl;
    repeat match goal with
           | |- context [?x <=? 0] => destruct (Z.leb_spec x 0)
           end; Z.div_mod_to_equations; lia.
Qed.

(** Termination: a budget of [passes_needed] passes is enough. *)
Lemma while_loop_returns fuel :
  forall b i s,
    length b = 14%nat -> 0 <= i < 14 ->
    passes_needed player i s <= Z.of_nat fuel ->
    exists st', while_loop fuel player (b, i, s) = Return st'.
Proof.
  induction fuel as [|fuel IH]; intros b i s Hb Hi Hfuel.
  - simpl. destruct (Z.gtb_spec s 0) as [Hpos|Hle]; [|eauto].
    exfalso. unfold passes_needed in Hfuel.
    destruct (Z.leb_spec s 0); [lia|].
    destruct ((player =? 1) || (player =? 2)); [|lia].
    assert (0 <= (s + 12 - gap player i) / 13); [|lia].
    apply Z.div_pos; [|lia].
    unfold gap. destruct (player =? 1); [|destruct (player =? 2)];
      try lia; pose proof (Z.mod_pos_bound (12 - i) 14);
      pose proof (Z.mod_pos_bound (5 - i) 14); lia.
  - cbn [while_loop snd]. destruct (Z.gtb_spec s 0) as [Hpos|Hle]; [|eauto].
    rewrite loop_body_pass by exact Hb. cbn [bind].
    pose proof (passes_needed_pass b i s Hi ltac:(lia)) as Hdec.
    pose proof (pass_length (b, i, s)) as Hlen.
    pose proof (pass_index (b, i, s)) as Hidx.
    destruct (pass player (b, i, s)) as [[b' i'] s'] eqn:E.
    simpl in *. apply IH; [congruence|exact Hidx|lia].
Qed.

(** More budget never changes the result. *)
Lemma while_loop_more fuel :
  forall fuel' st st',
    (fuel <= fuel')%nat ->
    while_loop fuel player st = Return st' ->
    while_loop fuel' player st = Return st'.
Proof.
  induction fuel as [|fuel IH]; intros fuel' st st' Hle Hrun.
  - simpl in Hrun. destruct (st.2 >? 0) eqn:E; [discriminate|].
    destruct fuel'; simpl; now rewrite E.
  - destruct fuel' as [|fuel']; [lia|].
    simpl in *. destruct (st.2 >? 0); [|exact Hrun].
    destruct (loop_body player st) as [st1| |]; simpl in *;
      try discriminate.
    apply IH; [lia|exact Hrun].
Qed.

Lemma passes_needed_budget i s :
  0 <= i < 14 -> (Z.to_nat (passes_needed player i s) <= loop_budget s)%nat.
Proof.
  intros Hi. unfold passes_needed, loop_budget.
  destruct (Z.leb_spec s 0); [lia|].
  destruct ((player =? 1) || (player =? 2)); [|lia].
  assert (0 <= gap player i).
  { unfold gap. destruct (player =? 1); [|destruct (player =? 2)];
      try lia; apply Z.mod_pos_bound; lia. }
  assert ((s + 12 - gap player i) / 13 <= s); [|lia].
  apply Z.div_le_upper_bound; lia.
Qed.

End Loop.

(** ** [make_move] on a 14-position board *)

(** Resolve the reads and writes that are in range. *)
Ltac run_board :=
  repeat first
    [ rewrite getitem_in by (rewrite ?length_upd; lia)
    | rewrite setitem_in by (rewrite ?length_upd; lia)
    | progress cbn [bind] ].

Section MakeMove.

Variables (b : list Z) (pit player : Z).
Hypothesis Hlen : length b = 14%nat.

Lemma refused_is_invalid :
  refused b pit player = Return (is_invalid b pit player).
Proof using Hlen.
  unfold refused, is_invalid.
  destruct (player =? 1).
  - destruct (Z.ltb_spec pit 0); [reflexivity|].
    destruct (Z.gtb_spec pit 5); [reflexivity|].
    rewrite getitem_in by lia. reflexivity.
  - destruct (Z.ltb_spec pit 7); [reflexivity|].
    destruct (Z.gtb_spec pit 12); [reflexivity|].
    rewrite getitem_in by lia. reflexivity.
Qed.

Lemma is_invalid_false :
  is_invalid b pit player = false ->
  0 <= pit < 14 /\ at_ b pit <> 0 /\
  (player = 1 /\ 0 <= pit <= 5 \/ player <> 1 /\ 7 <= pit <= 12).
Proof using Type.
  clear Hlen. unfold is_invalid.
  destruct (Z.eqb_spec player 1);
    destruct (Z.ltb_spec pit 0); destruct (Z.gtb_spec pit 5);
    destruct (Z.ltb_spec pit 7); destruct (Z.gtb_spec pit 12);
    destruct (Z.eqb_spec (at_ b pit) 0); simpl; try discriminate;
    intros _; lia.
Qed.

(** The loop of [sow] returns, and what every pass keeps holds of its
    result. *)
Lemma sow_returns (P : loop_state -> Prop) :
  0 <= pit < 14 ->
  (forall st, length st.1.1 = 14%nat -> st.2 > 0 -> P st ->
              P (pass player st)) ->
  P (upd b pit 0, pit, at_ b pit) ->
  exists bs idx s',
    sow b pit player = Return (bs, idx) /\
    P (bs, idx, s') /\ length bs = 14%nat /\ 0 <= idx < 14 /\ s' <= 0.
Proof using Hlen.
  intros Hpit Hstep Hinit. unfold sow.
  rewrite getitem_in by lia. cbn [bind].
  rewrite setitem_in by lia. cbn [bind].
  assert (Hlen0 : length (upd b pit 0) = 14%nat)
    by (now rewrite length_upd).
  destruct (while_loop_returns player (loop_budget (at_ b pit))
              (upd b pit 0) pit (at_ b pit) Hlen0 Hpit) as [st' Hrun].
  { pose proof (passes_needed_budget player pit (at_ b pit) Hpit).
    unfold passes_needed in *.
    destruct (at_ b pit <=? 0); [lia|].
    destruct ((player =? 1) || (player =? 2)); lia. }
  rewrite Hrun. cbn [bind].
  destruct (while_loop_inv player
              (fun st => P st /\ 0 <= st.1.2 < 14)
              ltac:(intros st ? ? [? ?]; split;
                    [now apply Hstep|apply pass_index])
              _ (upd b pit 0, pit, at_ b pit) _ Hlen0 (conj Hinit Hpit)
              Hrun)
    as [[HP Hidx] [Hl Hs]].
  destruct st' as [[bs idx] s']. exists bs, idx, s'. simpl in *. auto.
Qed.

Lemma capture_returns bs idx :
  length bs = 14%nat -> 0 <= idx < 14 ->
  capture bs idx player = Return (capture_result bs idx player).
Proof using Type.
  clear Hlen. intros Hbs Hidx.
  unfold capture, capture_result, capture_into, captured, Py.in_range.
  destruct (Z.eqb_spec player 1) as [E1|E1];
    destruct (Z.eqb_spec player 2) as [E2|E2]; try lia;
    destruct (Z.leb_spec 0 idx); destruct (Z.ltb_spec idx 6);
    destruct (Z.leb_spec 7 idx); destruct (Z.ltb_spec idx 13);
    try lia; cbn [andb bind]; try reflexivity; run_board;
    (destruct (at_ bs idx =? 1); cbn [bind]; [|reflexivity]);
    run_board;
    (destruct (at_ bs (12 - idx) >? 0); [|reflexivity]);
    run_board; reflexivity.
Qed.

Lemma make_move_invalid :
  is_invalid b pit player = true ->
  make_move b pit player = Return (false, b, false).
Proof using Hlen.
  intros H. unfold make_move. rewrite refused_is_invalid, H. reflexivity.
Qed.

(** A valid move: the stones are sown, then the capture rule is applied to
    the sown board at the landing position. *)
Lemma make_move_valid (P : loop_state -> Prop) :
  is_invalid b pit player = false ->
  (forall st, length st.1.1 = 14%nat -> st.2 > 0 -> P st ->
              P (pass player st)) ->
  P (upd b pit 0, pit, at_ b pit) ->
  exists bs idx s',
    sow b pit player = Return (bs, idx) /\
    make_move b pit player =
      Return (true, capture_result bs idx player,
              extra_turn_flag idx player) /\
    P (bs, idx, s') /\ length bs = 14%nat /\ 0 <= idx < 14 /\ s' <= 0.
Proof using Hlen.
  intros Hv Hstep Hinit.
  destruct (is_invalid_false Hv) as [Hpit _].
  destruct (sow_returns P Hpit Hstep Hinit)
    as (bs & idx & s' & Hsow & HP & Hbs & Hidx & Hs).
  exists bs, idx, s'. repeat split; try assumption; try lia.
  unfold make_move. rewrite refused_is_invalid, Hv. cbn [bind].
  rewrite Hsow. cbn [bind].
  rewrite capture_returns by assumption. cbn [bind].
  unfold extra_turn_flag.
  destruct ((player =? 1) && (idx =? 6) || (player =? 2) && (idx =? 13));
    reflexivity.
Qed.

End MakeMove.

(** ** What a pass and a capture keep *)

Section Preservation.

Variable player : Z.

Lemma pass_cases b i s :
  length b = 14%nat ->
  let j := (i + 1) mod 14 in
  0 <= j < 14 /\
  (skips player j = true /\ pass player (b, i, s) = (b, j, s) \/
   skips player j = false /\
   pass player (b, i, s) = (upd b j (at_ b j + 1), j, s - 1)).
Proof.
  intros Hb j. split; [apply Z.mod_pos_bound; lia|].
  unfold pass. fold j. destruct (skips player j); auto.
Qed.

Lemma pass_conserves total st :
  length st.1.1 = 14%nat -> st.2 > 0 ->
  conserves total st -> conserves total (pass player st).
Proof.
  destruct st as [[b i] s]. unfold conserves. cbn [fst snd].
  intros Hb Hs [H0 Hsum].
  destruct (pass_cases b i s Hb) as [Hj [[_ ->]|[_ ->]]];
    unfold conserves; cbn [fst snd]; [lia|].
  rewrite sum_upd by lia. lia.
Qed.

Lemma pass_nonneg st :
  length st.1.1 = 14%nat -> st.2 > 0 ->
  nonneg st.1.1 -> nonneg (pass player st).1.1.
Proof.
  destruct st as [[b i] s]. cbn [fst snd]. intros Hb Hs Hnn.
  destruct (pass_cases b i s Hb) as [Hj [[_ ->]|[_ ->]]]; cbn [fst snd];
    [assumption|].
  apply nonneg_upd; [assumption|].
  pose proof (nonneg_at b ((i + 1) mod 14) Hnn). lia.
Qed.

(** A position the loop skips keeps its count. *)
Lemma pass_skipped k v st :
  length st.1.1 = 14%nat -> st.2 > 0 ->
  0 <= k -> skips player k = true ->
  at_ st.1.1 k = v -> at_ (pass player st).1.1 k = v.
Proof.
  destruct st as [[b i] s]. cbn [fst snd]. intros Hb Hs Hk Hskip Hv.
  destruct (pass_cases b i s Hb) as [Hj [[_ ->]|[Hno ->]]]; cbn [fst snd];
    [assumption|].
  rewrite at_upd_ne; [assumption|lia|lia|].
  intros ->. congruence.
Qed.

End Preservation.

Section Capture.

Variables (bs : list Z) (idx store : Z).
Hypothesis Hbs : length bs = 14%nat.
Hypothesis Hside : store = 6 /\ 0 <= idx <= 5 \/ store = 13 /\ 7 <= idx <= 12.

Lemma captured_length : length (captured store bs idx) = 14%nat.
Proof using Hbs. unfold captured. now rewrite !length_upd. Qed.

Lemma captured_at j :
  0 <= j ->
  at_ (captured store bs idx) j =
    if j =? 12 - idx then 0
    else if j =? idx then 0
    else if j =? store then at_ bs store + (at_ bs (12 - idx) + 1)
    else at_ bs j.
Proof using Hbs Hside.
  intros Hj. unfold captured.
  rewrite at_upd by (rewrite ?length_upd; lia).
  destruct (j =? 12 - idx); [reflexivity|].
  rewrite at_upd by (rewrite ?length_upd; lia).
  destruct (j =? idx); [reflexivity|].
  rewrite at_upd by lia. reflexivity.
Qed.

Lemma captured_sum :
  at_ bs idx = 1 -> Py.sum (captured store bs idx) = Py.sum bs.
Proof using Hbs Hside.
  intros H1. unfold captured.
  rewrite sum_upd by (rewrite ?length_upd; lia).
  rewrite at_upd_ne by (rewrite ?length_upd; lia).
  rewrite at_upd_ne by lia.
  rewrite sum_upd by (rewrite ?length_upd; lia).
  rewrite at_upd_ne by lia.
  rewrite sum_upd by lia. lia.
Qed.

Lemma captured_nonneg : nonneg bs -> nonneg (captured store bs idx).
Proof using Type.
  clear Hbs Hside. intros Hnn. unfold captured.
  repeat apply nonneg_upd; try assumption; try lia.
  pose proof (nonneg_at bs store Hnn).
  pose proof (nonneg_at bs (12 - idx) Hnn). lia.
Qed.

End Capture.

Section CaptureResult.

Variables (bs : list Z) (idx player : Z).
Hypothesis Hbs : length bs = 14%nat.

Lemma capture_result_cases :
  (exists store, fires bs idx player store /\
     capture_result bs idx player = captured store bs idx) \/
  ((forall store, ~ fires bs idx player store) /\
   capture_result bs idx player = bs).
Proof using Type.
  clear Hbs. unfold capture_result, fires, Py.in_range.
  destruct (Z.eqb_spec player 1); destruct (Z.eqb_spec player 2);
    destruct (Z.leb_spec 0 idx); destruct (Z.ltb_spec idx 6);
    destruct (Z.leb_spec 7 idx); destruct (Z.ltb_spec idx 13);
    destruct (Z.eqb_spec (at_ bs idx) 1);
    destruct (Z.gtb_spec (at_ bs (12 - idx)) 0);
    cbn [andb]; try lia;
    first [ right; split; [intros store; lia|reflexivity]
          | left; exists 6; split; [lia|reflexivity]
          | left; exists 13; split; [lia|reflexivity] ].
Qed.

Lemma capture_result_length :
  length (capture_result bs idx player) = 14%nat.
Proof using Hbs.
  destruct capture_result_cases as [(store & _ & ->)|[_ ->]];
    [now apply captured_length|assumption].
Qed.

Lemma capture_result_sum :
  Py.sum (capture_result bs idx player) = Py.sum bs.
Proof using Hbs.
  destruct capture_result_cases as [(store & Hf & ->)|[_ ->]];
    [|reflexivity].
  unfold fires in Hf. apply captured_sum; [assumption|lia|lia].
Qed.

Lemma capture_result_nonneg :
  nonneg bs -> nonneg (capture_result bs idx player).
Proof using Type.
  clear Hbs. intros Hnn.
  destruct capture_result_cases as [(store & _ & ->)|[_ ->]];
    [now apply captured_nonneg|assumption].
Qed.

(** The capture rule never touches the store of the other player. *)
Lemma capture_result_other_store k :
  player = 1 /\ k = 13 \/ player = 2 /\ k = 6 ->
  at_ (capture_result bs idx player) k = at_ bs k.
Proof using Hbs.
  intros Hk.
  destruct capture_result_cases as [(store & Hf & ->)|[_ ->]];
    [|reflexivity].
  unfold fires in Hf. rewrite captured_at by lia.
  destruct (Z.eqb_spec k (12 - idx)); [lia|].
  destruct (Z.eqb_spec k idx); [lia|].
  destruct (Z.eqb_spec k store); [lia|reflexivity].
Qed.

End CaptureResult.

(** ** [collect_remaining_stones] on a 14-position board *)

Lemma board14 (b : list Z) :
  length b = 14%nat ->
  exists x0 x1 x2 x3 x4 x5 x6 x7 x8 x9 x10 x11 x12 x13,
    b = [x0; x1; x2; x3; x4; x5; x6; x7; x8; x9; x10; x11; x12; x13].
Proof.
  intros H.
  do 14 (destruct b as [|? b]; [discriminate H|]).
  destruct b; [|discriminate H].
  repeat eexists.
Qed.

Lemma collect_board14 x0 x1 x2 x3 x4 x5 x6 x7 x8 x9 x10 x11 x12 x13 :
  collect_remaining_stones
    [x0; x1; x2; x3; x4; x5; x6; x7; x8; x9; x10; x11; x12; x13] =
  Return [0; 0; 0; 0; 0; 0; x6 + Py.sum [x0; x1; x2; x3; x4; x5];
          0; 0; 0; 0; 0; 0; x13 + Py.sum [x7; x8; x9; x10; x11; x12]].
Proof. reflexivity. Qed.

Lemma collect_returns (b : list Z) :
  length b = 14%nat ->
  exists b',
    collect_remaining_stones b = Return b' /\
    length b' = 14%nat /\
    Py.sum b' = Py.sum b /\
    (nonneg b -> nonneg b') /\
    at_ b' 6 = at_ b 6 + (at_ b 0 + at_ b 1 + at_ b 2 + at_ b 3 + at_ b 4 +
                          at_ b 5) /\
    at_ b' 13 = at_ b 13 + (at_ b 7 + at_ b 8 + at_ b 9 + at_ b 10 +
                            at_ b 11 + at_ b 12) /\
    (forall i, 0 <= i <= 5 \/ 7 <= i <= 12 -> at_ b' i = 0) /\
    collect_remaining_stones b' = Return b'.
Proof.
  intros H.
  destruct (board14 b H)
    as (x0 & x1 & x2 & x3 & x4 & x5 & x6 & x7 & x8 & x9 & x10 & x11 & x12
        & x13 & ->).
  eexists. split; [apply collect_board14|].
  split; [reflexivity|].
  split; [unfold Py.sum; cbn [foldr]; lia|].
  split.
  { unfold nonneg. rewrite !Forall_cons. intros Hnn.
    unfold Py.sum; cbn [foldr]. repeat split; try lia; constructor. }
  split; [unfold at_, Py.sum; simpl; lia|].
  split; [unfold at_, Py.sum; simpl; lia|].
  split.
  { intros i Hi.
    assert (Hc : i = 0 \/ i = 1 \/ i = 2 \/ i = 3 \/ i = 4 \/ i = 5 \/
                 i = 7 \/ i = 8 \/ i = 9 \/ i = 10 \/ i = 11 \/ i = 12)
      by lia.
    repeat (destruct Hc as [->|Hc]); try subst i; reflexivity. }
  rewrite collect_board14. unfold Py.sum; cbn [foldr].
  repeat first [lia | f_equal].
Qed.

(** ** What every call of [make_move] keeps *)

Lemma make_move_from_sow (b : list Z) (pit player : Z) bs idx :
  length b = 14%nat -> is_invalid b pit player = false ->
  sow b pit player = Return (bs, idx) ->
  length bs = 14%nat -> 0 <= idx < 14 ->
  make_move b pit player =
    Return (true, capture_result bs idx player, extra_turn_flag idx player).
Proof.
  intros Hb Hv Hsow Hbs Hidx.
  unfold make_move. rewrite (refused_is_invalid b pit player Hb), Hv.
  cbn [bind]. rewrite Hsow. cbn [bind].
  rewrite capture_returns by assumption. cbn [bind].
  unfold extra_turn_flag.
  destruct ((player =? 1) && (idx =? 6) || (player =? 2) && (idx =? 13));
    reflexivity.
Qed.

Lemma make_move_keeps (b : list Z) (pit player : Z) :
  length b = 14%nat ->
  exists v b' e,
    make_move b pit player = Return (v, b', e) /\
    length b' = 14%nat /\
    (0 <= at_ b pit -> Py.sum b' = Py.sum b) /\
    (nonneg b -> nonneg b') /\
    (forall k, player = 1 /\ k = 13 \/ player = 2 /\ k = 6 ->
               at_ b' k = at_ b k).
Proof.
  intros Hb. destruct (is_invalid b pit player) eqn:Hv.
  - exists false, b, false. rewrite make_move_invalid by assumption. auto.
  - destruct (is_invalid_false b pit player Hv) as (Hpit & Hne & Hown).
    set (P := fun st : loop_state =>
      (0 <= at_ b pit -> conserves (Py.sum b) st) /\
      (nonneg b -> nonneg st.1.1) /\
      (forall k, player = 1 /\ k = 13 \/ player = 2 /\ k = 6 ->
                 at_ st.1.1 k = at_ b k)).
    destruct (make_move_valid b pit player Hb P Hv)
      as (bs & idx & s' & _ & Hmove & (Hsum & Hnn & Hst) & Hbs & Hidx & Hs).
    + intros st Hl Hpos (Hsum & Hnn & Hst). split; [|split].
      * intros H0. apply pass_conserves; auto.
      * intros H. apply pass_nonneg; auto.
      * intros k Hk. apply pass_skipped; auto; [lia|].
        unfold skips. destruct Hk as [[-> ->]|[-> ->]]; reflexivity.
    + unfold P, conserves. cbn [fst snd]. split; [|split].
      * intros H0. split; [assumption|]. rewrite sum_upd by lia. lia.
      * intros H. apply nonneg_upd; [assumption|lia].
      * intros k Hk. apply at_upd_ne; lia.
    + exists true, (capture_result bs idx player), (extra_turn_flag idx player).
      split; [exact Hmove|].
      split; [now apply capture_result_length|].
      split.
      { intros H0. rewrite capture_result_sum by assumption.
        destruct (Hsum H0) as [Hs0 Htot]. cbn [fst snd] in *. lia. }
      split.
      { intros H. now apply capture_result_nonneg, Hnn. }
      intros k Hk. rewrite capture_result_other_store by assumption.
      now apply Hst.
Qed.

Lemma plays_keeps (b b' : list Z) :
  plays b b' -> length b = 14%nat -> nonneg b ->
  length b' = 14%nat /\ nonneg b' /\ Py.sum b' = Py.sum b.
Proof.
  intros Hplay Hb Hnn.
  induction Hplay as [|b1 pit player v b2 e _ IH Hmove|b1 b2 _ IH Hcol].
  - auto.
  - destruct IH as (Hl & Hn & Hs).
    destruct (make_move_keeps b1 pit player Hl)
      as (v' & b2' & e' & Hmove' & Hl2 & Hs2 & Hn2 & _).
    rewrite Hmove in Hmove'. injection Hmove' as <- <- <-.
    repeat split; auto. rewrite Hs2; [assumption|].
    now apply nonneg_at.
  - destruct IH as (Hl & Hn & Hs).
    destruct (collect_returns b1 Hl) as (b2' & Hcol' & Hl2 & Hs2 & Hn2 & _).
    rewrite Hcol in Hcol'. injection Hcol' as <-.
    repeat split; auto. congruence.
Qed.

(** * The properties of the engine *)

(** C1. Conservation: on a board of 14 non-negative counts that sum to 48,
    [make_move] with any pit and any player returns a board that sums to 48
    (the move accepted or refused); on any 14-position board that sums to 48,
    [collect_remaining_stones] returns a board that sums to 48; hence the sum
    is 48 after every call in a game played from such a board. *)
Theorem conservation_of_stones (b : list Z) :
  length b = 14%nat -> Py.sum b = 48 ->
  (nonneg b ->
   forall pit player, exists v b' e,
     make_move b pit player = Return (v, b', e) /\ Py.sum b' = 48) /\
  (exists b', collect_remaining_stones b = Return b' /\ Py.sum b' = 48) /\
  (nonneg b -> forall b', plays b b' -> Py.sum b' = 48).
Proof.
  intros Hb Hsum. split; [|split].
  - intros Hnn pit player.
    destruct (make_move_keeps b pit player Hb)
      as (v & b' & e & Hmove & _ & Hs & _).
    exists v, b', e. split; [exact Hmove|].
    rewrite Hs; [assumption|]. now apply nonneg_at.
  - destruct (collect_returns b Hb) as (b' & Hcol & _ & Hs & _).
    exists b'. split; [exact Hcol|congruence].
  - intros Hnn b' Hplay.
    destruct (plays_keeps b b' Hplay Hb Hnn) as (_ & _ & Hs). congruence.
Qed.

Lemma conservation_of_stones_witness :
  length init_board = 14%nat /\ Py.sum init_board = 48 /\
  exists v b' e,
    make_move init_board 3 1 = Return (v, b', e) /\ Py.sum b' = 48.
Proof.
  split; [reflexivity|]. split; [reflexivity|].
  destruct (conservation_of_stones init_board eq_refl eq_refl) as [H _].
  apply H. unfold nonneg, init_board. simpl.
  repeat constructor; discriminate.
Defined.

(** C8. Non-negativity: on a board of 14 non-negative counts, every count of
    the board returned by [make_move] (any pit, any player) and by
    [collect_remaining_stones] is non-negative, and so it stays through a
    whole game. *)
Theorem counts_stay_nonnegative (b : list Z) :
  length b = 14%nat -> nonneg b ->
  (forall pit player, exists v b' e,
     make_move b pit player = Return (v, b', e) /\ nonneg b') /\
  (exists b', collect_remaining_stones b = Return b' /\ nonneg b') /\
  (forall b', plays b b' -> nonneg b').
Proof.
  intros Hb Hnn. split; [|split].
  - intros pit player.
    destruct (make_move_keeps b pit player Hb)
      as (v & b' & e & Hmove & _ & _ & Hn & _).
    exists v, b', e. auto.
  - destruct (collect_returns b Hb) as (b' & Hcol & _ & _ & Hn & _).
    exists b'. auto.
  - intros b' Hplay.
    now destruct (plays_keeps b b' Hplay Hb Hnn) as (_ & Hn & _).
Qed.

Lemma counts_stay_nonnegative_witness :
  length init_board = 14%nat /\ nonneg init_board /\
  exists v b' e,
    make_move init_board 8 2 = Return (v, b', e) /\ nonneg b'.
Proof.
  assert (Hnn : nonneg init_board).
  { unfold nonneg, init_board. simpl. repeat constructor; discriminate. }
  split; [reflexivity|]. split; [exact Hnn|].
  destruct (counts_stay_nonnegative init_board eq_refl Hnn) as [H _].
  apply H.
Defined.

(** C6. Frame: on a 14-position board, a move by Player 1, accepted or
    refused, leaves [board[13]] as it was, and a move by Player 2 leaves
    [board[6]] as it was. *)
Theorem opponent_store_untouched (b : list Z) (pit : Z) :
  length b = 14%nat ->
  (exists v b' e,
     make_move b pit 1 = Return (v, b', e) /\ at_ b' 13 = at_ b 13) /\
  (exists v b' e,
     make_move b pit 2 = Return (v, b', e) /\ at_ b' 6 = at_ b 6).
Proof.
  intros Hb. split.
  - destruct (make_move_keeps b pit 1 Hb)
      as (v & b' & e & Hmove & _ & _ & _ & Hk).
    exists v, b', e. split; [exact Hmove|]. apply Hk. auto.
  - destruct (make_move_keeps b pit 2 Hb)
      as (v & b' & e & Hmove & _ & _ & _ & Hk).
    exists v, b', e. split; [exact Hmove|]. apply Hk. auto.
Qed.

Lemma opponent_store_untouched_witness :
  let b := [0; 0; 0; 0; 0; 13; 2; 1; 1; 1; 1; 1; 20; 7] in
  length b = 14%nat /\
  (exists v b' e, make_move b 5 1 = Return (v, b', e) /\ at_ b' 13 = 7) /\
  (exists v b' e, make_move b 12 2 = Return (v, b', e) /\ at_ b' 6 = 2).
Proof.
  intros b. split; [reflexivity|].
  split.
  - exact (proj1 (opponent_store_untouched b 5 eq_refl)).
  - exact (proj2 (opponent_store_untouched b 12 eq_refl)).
Defined.

(** C7. [collect_remaining_stones] on a 14-position board: store 6 gains the
    old sum of pits 0-5, store 13 gains the old sum of pits 7-12, all twelve
    pits become 0, and a second call returns the same board. *)
Theorem collect_folds_pits_into_stores (b : list Z) :
  length b = 14%nat ->
  exists b',
    collect_remaining_stones b = Return b' /\
    at_ b' 6 = at_ b 6 + (at_ b 0 + at_ b 1 + at_ b 2 + at_ b 3 + at_ b 4 +
                          at_ b 5) /\
    at_ b' 13 = at_ b 13 + (at_ b 7 + at_ b 8 + at_ b 9 + at_ b 10 +
                            at_ b 11 + at_ b 12) /\
    (forall i, 0 <= i <= 5 \/ 7 <= i <= 12 -> at_ b' i = 0) /\
    collect_remaining_stones b' = Return b'.
Proof.
  intros Hb.
  destruct (collect_returns b Hb)
    as (b' & Hcol & _ & _ & _ & H6 & H13 & Hz & Hidem).
  exists b'. auto.
Qed.

Lemma collect_folds_pits_into_stores_witness :
  let b := [1; 0; 2; 0; 0; 3; 10; 0; 0; 0; 0; 0; 0; 32] in
  length b = 14%nat /\
  exists b',
    collect_remaining_stones b = Return b' /\
    at_ b' 6 = 16 /\ at_ b' 13 = 32 /\
    (forall i, 0 <= i <= 5 \/ 7 <= i <= 12 -> at_ b' i = 0) /\
    collect_remaining_stones b' = Return b'.
Proof.
  intros b. split; [reflexivity|].
  exact (collect_folds_pits_into_stores b eq_refl).
Defined.

Lemma is_invalid_spec (b : list Z) (pit player : Z) :
  player = 1 \/ player = 2 ->
  is_invalid b pit player = true <-> invalid_move b pit player.
Proof.
  intros Hp. unfold is_invalid, invalid_move.
  destruct (Z.eqb_spec player 1);
    destruct (Z.ltb_spec pit 0); destruct (Z.gtb_spec pit 5);
    destruct (Z.ltb_spec pit 7); destruct (Z.gtb_spec pit 12);
    destruct (Z.eqb_spec (at_ b pit) 0); cbn [orb];
    split; intros ?; try reflexivity; try discriminate; try lia.
Qed.

(** C4. Validation: on a 14-position board and for a player in {1, 2},
    [make_move] returns [(False, board, False)], the board unchanged, exactly
    when the move is invalid; otherwise its validity flag is [True]; and in
    no case does it raise. *)
Theorem validation_correct (b : list Z) (pit player : Z) :
  length b = 14%nat -> player = 1 \/ player = 2 ->
  (make_move b pit player = Return (false, b, false) <->
   invalid_move b pit player) /\
  (~ invalid_move b pit player ->
   exists b' e, make_move b pit player = Return (true, b', e)) /\
  (exists r, make_move b pit player = Return r).
Proof.
  intros Hb Hp.
  pose proof (is_invalid_spec b pit player Hp) as Hspec.
  destruct (is_invalid b pit player) eqn:Hv.
  - assert (Hinv : invalid_move b pit player) by now apply Hspec.
    pose proof (make_move_invalid b pit player Hb Hv) as Hmove.
    split; [tauto|]. split; [tauto|]. eauto.
  - assert (Hok : ~ invalid_move b pit player).
    { intros H. apply Hspec in H. discriminate. }
    destruct (make_move_valid b pit player Hb (fun _ => True) Hv)
      as (bs & idx & s' & _ & Hmove & _); [auto|exact I|].
    split; [|split].
    + split; [|tauto]. rewrite Hmove. discriminate.
    + intros _. eauto.
    + eauto.
Qed.

Lemma validation_correct_witness :
  length init_board = 14%nat /\ (2 = 1 \/ 2 = 2) /\
  (make_move init_board 5 2 = Return (false, init_board, false) <->
   invalid_move init_board 5 2).
Proof.
  split; [reflexivity|]. split; [right; reflexivity|].
  exact (proj1 (validation_correct init_board 5 2 eq_refl
                  (or_intror eq_refl))).
Defined.

(** C2. Capture: for a valid move of a player in {1, 2} on a 14-position
    board, let [bs] be the board after sowing and [idx] the landing position.
    If [idx] is one of the player's own pits, holds exactly 1 stone in [bs],
    and pit [12 - idx] holds more than 0, then [make_move] adds
    [bs[12 - idx] + 1] to the player's store and sets positions [idx] and
    [12 - idx] to 0, leaving every other position as sown.  If one of the
    three conditions fails the returned board is [bs]. *)
Theorem capture_rule (b : list Z) (pit player : Z) :
  length b = 14%nat -> player = 1 \/ player = 2 ->
  ~ invalid_move b pit player ->
  exists bs idx b' e,
    sow b pit player = Return (bs, idx) /\
    make_move b pit player = Return (true, b', e) /\
    let store := own_store player in
    let cond := own_pit player idx /\ at_ bs idx = 1 /\
                at_ bs (12 - idx) > 0 in
    (cond ->
     at_ b' store = at_ bs store + (at_ bs (12 - idx) + 1) /\
     at_ b' idx = 0 /\ at_ b' (12 - idx) = 0 /\
     forall j, 0 <= j < 14 -> j <> store -> j <> idx -> j <> 12 - idx ->
               at_ b' j = at_ bs j) /\
    (~ cond -> b' = bs).
Proof.
  intros Hb Hp Hok.
  assert (Hv : is_invalid b pit player = false).
  { destruct (is_invalid b pit player) eqn:E; [|reflexivity].
    exfalso. apply Hok. now apply is_invalid_spec. }
  destruct (make_move_valid b pit player Hb (fun _ => True) Hv)
    as (bs & idx & s' & Hsow & Hmove & _ & Hbs & Hidx & _); [auto|exact I|].
  exists bs, idx, (capture_result bs idx player), (extra_turn_flag idx player).
  split; [exact Hsow|]. split; [exact Hmove|].
  unfold own_pit, own_store. cbn zeta.
  destruct (capture_result_cases bs idx player)
    as [(store & Hf & ->)|[Hnf ->]]; unfold fires in *.
  - assert (Hst : store = if player =? 1 then 6 else 13).
    { destruct (Z.eqb_spec player 1); lia. }
    rewrite <- Hst. split; [|intros Hn; exfalso; apply Hn; lia].
    intros _.
    assert (Hside : store = 6 /\ 0 <= idx <= 5 \/
                    store = 13 /\ 7 <= idx <= 12) by lia.
    repeat split.
    + rewrite (captured_at bs idx store Hbs Hside) by lia.
      destruct (Z.eqb_spec store (12 - idx)); [lia|].
      destruct (Z.eqb_spec store idx); [lia|].
      now rewrite Z.eqb_refl.
    + rewrite (captured_at bs idx store Hbs Hside) by lia.
      destruct (Z.eqb_spec idx (12 - idx)); [reflexivity|].
      now rewrite Z.eqb_refl.
    + rewrite (captured_at bs idx store Hbs Hside) by lia.
      now rewrite Z.eqb_refl.
    + intros j Hj H1 H2 H3.
      rewrite (captured_at bs idx store Hbs Hside) by lia.
      destruct (Z.eqb_spec j (12 - idx)); [lia|].
      destruct (Z.eqb_spec j idx); [lia|].
      destruct (Z.eqb_spec j store); [lia|reflexivity].
  - split; [|reflexivity].
    intros Hc. exfalso.
    destruct (Z.eqb_spec player 1).
    + apply (Hnf 6). lia.
    + apply (Hnf 13). lia.
Qed.

Lemma capture_rule_witness :
  let b := [1; 0; 0; 0; 0; 0; 0; 0; 0; 0; 0; 5; 0; 0] in
  length b = 14%nat /\ (1 = 1 \/ 1 = 2) /\ ~ invalid_move b 0 1 /\
  exists bs idx b' e,
    sow b 0 1 = Return (bs, idx) /\
    make_move b 0 1 = Return (true, b', e) /\
    ((own_pit 1 idx /\ at_ bs idx = 1 /\ at_ bs (12 - idx) > 0) ->
     at_ b' 6 = at_ bs 6 + (at_ bs (12 - idx) + 1) /\
     at_ b' idx = 0 /\ at_ b' (12 - idx) = 0 /\
     forall j, 0 <= j < 14 -> j <> 6 -> j <> idx -> j <> 12 - idx ->
               at_ b' j = at_ bs j) /\
    (~ (own_pit 1 idx /\ at_ bs idx = 1 /\ at_ bs (12 - idx) > 0) ->
     b' = bs).
Proof.
  intros b.
  assert (Hok : ~ invalid_move b 0 1).
  { unfold invalid_move. vm_compute. intros [[_ [H|[H|H]]]|[H _]];
      discriminate. }
  split; [reflexivity|]. split; [left; reflexivity|]. split; [exact Hok|].
  exact (capture_rule b 0 1 eq_refl (or_introl eq_refl) Hok).
Defined.

(** C5. Extra turn: for a valid move of a player in {1, 2} on a 14-position
    board, the extra-turn flag is [True] exactly when the landing position is
    the player's own store (6 for Player 1, 13 for Player 2); and from the
    initial board Player 1 playing pit 2 gets the flag [True] and leaves
    [board[6] = 1]. *)
Theorem extra_turn_iff_own_store :
  (forall (b : list Z) (pit player : Z),
     length b = 14%nat -> player = 1 \/ player = 2 ->
     ~ invalid_move b pit player ->
     exists bs idx b' e,
       sow b pit player = Return (bs, idx) /\
       make_move b pit player = Return (true, b', e) /\
       (e = true <-> idx = own_store player)) /\
  (exists b',
     make_move init_board 2 1 = Return (true, b', true) /\ at_ b' 6 = 1).
Proof.
  split.
  - intros b pit player Hb Hp Hok.
    assert (Hv : is_invalid b pit player = false).
    { destruct (is_invalid b pit player) eqn:E; [|reflexivity].
      exfalso. apply Hok. now apply is_invalid_spec. }
    destruct (make_move_valid b pit player Hb (fun _ => True) Hv)
      as (bs & idx & s' & Hsow & Hmove & _); [auto|exact I|].
    exists bs, idx, (capture_result bs idx player),
      (extra_turn_flag idx player).
    split; [exact Hsow|]. split; [exact Hmove|].
    unfold extra_turn_flag, own_store.
    destruct (Z.eqb_spec player 1); destruct (Z.eqb_spec player 2);
      destruct (Z.eqb_spec idx 6); destruct (Z.eqb_spec idx 13);
      cbn [andb orb]; split; intros ?; try reflexivity; try discriminate;
      lia.
  - eexists. split; [vm_compute; reflexivity|reflexivity].
Qed.

Lemma extra_turn_iff_own_store_witness :
  length init_board = 14%nat /\ (2 = 1 \/ 2 = 2) /\
  ~ invalid_move init_board 9 2 /\
  exists bs idx b' e,
    sow init_board 9 2 = Return (bs, idx) /\
    make_move init_board 9 2 = Return (true, b', e) /\
    (e = true <-> idx = 13).
Proof.
  assert (Hok : ~ invalid_move init_board 9 2).
  { unfold invalid_move. vm_compute. intros [[H _]|[_ [H|[H|H]]]];
      discriminate. }
  split; [reflexivity|]. split; [right; reflexivity|]. split; [exact Hok|].
  exact (proj1 extra_turn_iff_own_store init_board 9 2 eq_refl
           (or_intror eq_refl) Hok).
Defined.

(** C3, refuted: four stones from pit 0 land on pit 4, not on pit 1; pit 1
    ends with 1 stone, pit 11 keeps its 5 and store 6 gains nothing. *)
Lemma capture_example_fails :
  let b := [4; 0; 4; 4; 4; 4; 0; 4; 4; 4; 4; 5; 4; 3] in
  sow b 0 1 = Return ([0; 1; 5; 5; 5; 4; 0; 4; 4; 4; 4; 5; 4; 3], 4) /\
  make_move b 0 1 =
    Return (true, [0; 1; 5; 5; 5; 4; 0; 4; 4; 4; 4; 5; 4; 3], false) /\
  ~ capture_example_as_stated b.
Proof.
  intros b. split; [reflexivity|]. split; [reflexivity|].
  intros H.
  destruct (H eq_refl eq_refl eq_refl) as (bs & v & b' & e & Hsow & _).
  vm_compute in Hsow. discriminate Hsow.
Qed.

(** C3, amended: on a 14-position board with pit 1 empty and 5 stones in
    pit 11, Player 1 playing pit 0
    - with 4 stones in pit 0 lands on pit 4; pit 1 ends with 1 stone and
      pit 11 keeps its 5;
    - with 1 stone in pit 0 lands on pit 1; pits 1 and 11 end at 0 and
      store 6 gains 6. *)
Theorem capture_example_amended (b : list Z) :
  length b = 14%nat -> at_ b 1 = 0 -> at_ b 11 = 5 ->
  (at_ b 0 = 4 ->
   exists bs b' e,
     sow b 0 1 = Return (bs, 4) /\
     make_move b 0 1 = Return (true, b', e) /\
     at_ b' 1 = 1 /\ at_ b' 11 = 5) /\
  (at_ b 0 = 1 ->
   exists bs b' e,
     sow b 0 1 = Return (bs, 1) /\
     make_move b 0 1 = Return (true, b', e) /\
     at_ b' 1 = 0 /\ at_ b' 11 = 0 /\ at_ b' 6 = at_ b 6 + 6).
Proof.
  intros Hb H1 H11.
  destruct (board14 b Hb)
    as (x0 & x1 & x2 & x3 & x4 & x5 & x6 & x7 & x8 & x9 & x10 & x11 & x12
        & x13 & ->).
  change (x1 = 0) in H1. change (x11 = 5) in H11. subst x1 x11.
  split; intros H0;
    [change (x0 = 4) in H0|change (x0 = 1) in H0]; subst x0.
  - set (bs := [0; 1; x2 + 1; x3 + 1; x4 + 1; x5; x6; x7; x8; x9; x10; 5;
                x12; x13]).
    assert (Hsow : sow [4; 0; x2; x3; x4; x5; x6; x7; x8; x9; x10; 5; x12;
                        x13] 0 1 = Return (bs, 4)) by reflexivity.
    exists bs, (capture_result bs 4 1), (extra_turn_flag 4 1).
    split; [exact Hsow|].
    split; [apply make_move_from_sow; try reflexivity; try lia; exact Hsow|].
    destruct (capture_result_cases bs 4 1)
      as [(store & Hf & ->)|[_ ->]]; [|split; reflexivity].
    unfold fires in Hf.
    assert (store = 6) as -> by lia.
    split; rewrite captured_at by (try reflexivity; lia); reflexivity.
  - set (bs := [0; 1; x2; x3; x4; x5; x6; x7; x8; x9; x10; 5; x12; x13]).
    assert (Hsow : sow [1; 0; x2; x3; x4; x5; x6; x7; x8; x9; x10; 5; x12;
                        x13] 0 1 = Return (bs, 1)) by reflexivity.
    exists bs, (capture_result bs 1 1), (extra_turn_flag 1 1).
    split; [exact Hsow|].
    split; [apply make_move_from_sow; try reflexivity; try lia; exact Hsow|].
    change (capture_result bs 1 1) with (captured 6 bs 1).
    repeat split; rewrite captured_at by (try reflexivity; lia);
      reflexivity.
Qed.

Lemma capture_example_amended_witness :
  let b := [1; 0; 4; 4; 4; 4; 7; 4; 4; 4; 4; 5; 4; 3] in
  length b = 14%nat /\ at_ b 1 = 0 /\ at_ b 11 = 5 /\ at_ b 0 = 1 /\
  exists bs b' e,
    sow b 0 1 = Return (bs, 1) /\
    make_move b 0 1 = Return (true, b', e) /\
    at_ b' 1 = 0 /\ at_ b' 11 = 0 /\ at_ b' 6 = 7 + 6.
Proof.
  intros b. repeat (split; [reflexivity|]).
  exact (proj2 (capture_example_amended b eq_refl eq_refl eq_refl) eq_refl).
Defined.

(** ** Termination of the distribution loop *)

(** With fewer passes than [passes_needed] the budget runs out. *)
Lemma while_loop_diverges (player : Z) (fuel : nat) :
  forall b i s,
    length b = 14%nat -> 0 <= i < 14 ->
    Z.of_nat fuel < passes_needed player i s ->
    while_loop fuel player (b, i, s) = Diverge.
Proof.
  induction fuel as [|fuel IH]; intros b i s Hb Hi Hfuel.
  - cbn [while_loop snd]. destruct (Z.gtb_spec s 0) as [Hpos|Hle];
      [reflexivity|].
    unfold passes_needed in Hfuel. destruct (Z.leb_spec s 0); lia.
  - cbn [while_loop snd]. destruct (Z.gtb_spec s 0) as [Hpos|Hle].
    + rewrite loop_body_pass by exact Hb. cbn [bind].
      pose proof (passes_needed_pass player b i s Hi ltac:(lia)) as Hdec.
      pose proof (pass_length player (b, i, s)) as Hlen.
      pose proof (pass_index player (b, i, s)) as Hidx.
      destruct (pass player (b, i, s)) as [[b' i'] s'] eqn:E.
      cbn [fst snd] in *. apply IH; [congruence|exact Hidx|lia].
    + unfold passes_needed in Hfuel. destruct (Z.leb_spec s 0); lia.
Qed.

Lemma passes_needed_bounds (player i s : Z) :
  0 <= i < 14 -> 0 < s ->
  s <= passes_needed player i s <= s + (s + 12) / 13.
Proof.
  intros Hi Hs. unfold passes_needed, gap.
  destruct (Z.leb_spec s 0); [lia|].
  destruct (player =? 1); [|destruct (player =? 2)]; cbn [orb];
    Z.div_mod_to_equations; lia.
Qed.

(** C9. Termination: on a board of 14 non-negative counts and for a pit and
    player that pass the validation of [make_move], the pit holds
    [stones > 0] and the distribution loop ends with no stone in hand after
    exactly [n] passes, where [stones <= n <= stones + (stones + 12) / 13]
    (at most one skipped position for every 13 stones deposited): with [n]
    passes or more allowed it returns one and the same result, with fewer it
    is still running.  That result is the one [sow] returns, and [make_move]
    returns with the validity flag [True]. *)
Theorem distribution_terminates (b : list Z) (pit player : Z) :
  length b = 14%nat -> nonneg b ->
  refused b pit player = Return false ->
  let stones := at_ b pit in
  let n := passes_needed player pit stones in
  0 < stones /\
  stones <= n <= stones + (stones + 12) / 13 /\
  exists bs idx,
    (forall fuel,
       n <= Z.of_nat fuel ->
       while_loop fuel player (upd b pit 0, pit, stones) =
         Return (bs, idx, 0)) /\
    (forall fuel,
       Z.of_nat fuel < n ->
       while_loop fuel player (upd b pit 0, pit, stones) = Diverge) /\
    sow b pit player = Return (bs, idx) /\
    exists b' e, make_move b pit player = Return (true, b', e).
Proof.
  intros Hb Hnn Href stones n.
  assert (Hv : is_invalid b pit player = false).
  { rewrite (refused_is_invalid b pit player Hb) in Href.
    now injection Href. }
  destruct (is_invalid_false b pit player Hv) as (Hpit & Hne & _).
  assert (Hpos : 0 < stones).
  { pose proof (nonneg_at b pit Hnn). unfold stones. lia. }
  assert (Hlen0 : length (upd b pit 0) = 14%nat) by now rewrite length_upd.
  pose proof (passes_needed_bounds player pit stones Hpit Hpos) as Hn.
  split; [exact Hpos|]. split; [exact Hn|].
  destruct (while_loop_returns player (Z.to_nat n) (upd b pit 0) pit stones
              Hlen0 Hpit ltac:(fold n; lia)) as [st' Hrun].
  destruct (while_loop_inv player (fun st => 0 <= st.2)
              ltac:(intros st Hl Hs _;
                    destruct st as [[b0 i0] s0];
                    destruct (pass_cases player b0 i0 s0 Hl)
                      as [_ [[_ ->]|[_ ->]]]; cbn [snd] in *; lia)
              (Z.to_nat n) (upd b pit 0, pit, stones) st' Hlen0
              ltac:(cbn [snd]; lia) Hrun)
    as (H0 & _ & Hs).
  destruct st' as [[bs idx] s']. cbn [snd] in H0, Hs.
  assert (s' = 0) as -> by lia.
  assert (Hall : forall fuel, n <= Z.of_nat fuel ->
            while_loop fuel player (upd b pit 0, pit, stones) =
              Return (bs, idx, 0)).
  { intros fuel Hle.
    apply (while_loop_more player (Z.to_nat n)); [lia|exact Hrun]. }
  exists bs, idx. split; [exact Hall|]. split.
  { intros fuel Hlt. now apply while_loop_diverges. }
  assert (Hsow : sow b pit player = Return (bs, idx)).
  { unfold sow. rewrite getitem_in by lia. cbn [bind].
    rewrite setitem_in by lia. cbn [bind]. fold stones.
    rewrite Hall; [reflexivity|].
    pose proof (passes_needed_budget player pit stones Hpit). fold n in H.
    lia. }
  split; [exact Hsow|].
  destruct (make_move_valid b pit player Hb (fun _ => True) Hv)
    as (bs1 & idx1 & s1 & _ & Hmove & _); [auto|exact I|]. eauto.
Qed.

Lemma distribution_terminates_witness :
  let b := [0; 0; 0; 0; 0; 30; 0; 0; 0; 0; 0; 0; 18; 0] in
  length b = 14%nat /\ nonneg b /\ refused b 5 1 = Return false /\
  passes_needed 1 5 30 = 32 /\
  exists bs idx,
    (forall fuel,
       32 <= Z.of_nat fuel ->
       while_loop fuel 1 (upd b 5 0, 5, 30) = Return (bs, idx, 0)) /\
    (forall fuel,
       Z.of_nat fuel < 32 ->
       while_loop fuel 1 (upd b 5 0, 5, 30) = Diverge) /\
    sow b 5 1 = Return (bs, idx) /\
    exists b' e, make_move b 5 1 = Return (true, b', e).
Proof.
  intros b.
  assert (Hnn : nonneg b).
  { unfold nonneg, b. repeat constructor; discriminate. }
  split; [reflexivity|]. split; [exact Hnn|]. split; [reflexivity|].
  split; [reflexivity|].
  exact (proj2 (proj2 (distribution_terminates b 5 1 eq_refl Hnn eq_refl))).
Defined.

(** ** A player value outside {1, 2} *)

Lemma while_loop_every_position (player : Z) (fuel : nat) :
  player <> 1 -> player <> 2 ->
  forall b i s st',
    length b = 14%nat ->
    while_loop fuel player (b, i, s) = Return st' ->
    (st'.1.1, st'.1.2) = sow_every_position (Z.to_nat s) b i.
Proof.
  intros H1 H2. induction fuel as [|fuel IH]; intros b i s st' Hb Hrun.
  - cbn [while_loop snd] in Hrun.
    destruct (Z.gtb_spec s 0); [discriminate|].
    injection Hrun as <-. replace (Z.to_nat s) with O by lia. reflexivity.
  - cbn [while_loop snd] in Hrun.
    destruct (Z.gtb_spec s 0) as [Hpos|Hle].
    + rewrite loop_body_pass in Hrun by exact Hb. cbn [bind] in Hrun.
      destruct (pass_cases player b i s Hb) as [Hj [[Hskip _]|[_ Hpass]]].
      { unfold skips in Hskip.
        destruct (Z.eqb_spec player 1); [contradiction|].
        destruct (Z.eqb_spec player 2); [contradiction|]. discriminate. }
      rewrite Hpass in Hrun.
      apply IH in Hrun; [|rewrite length_upd; exact Hb].
      rewrite Hrun.
      replace (Z.to_nat s) with (S (Z.to_nat (s - 1))) by lia.
      reflexivity.
    + injection Hrun as <-. replace (Z.to_nat s) with O by lia. reflexivity.
Qed.

Lemma capture_result_other_player (bs : list Z) (idx player : Z) :
  player <> 1 -> player <> 2 -> capture_result bs idx player = bs.
Proof.
  intros H1 H2. unfold capture_result.
  destruct (Z.eqb_spec player 1); [contradiction|].
  destruct (Z.eqb_spec player 2); [contradiction|]. reflexivity.
Qed.

(** C10, refuted: with player value 3 a move is not Player 2's move.  From
    the initial board, pit 9 lands on index 13 and Player 2 gets the extra
    turn, value 3 does not; with 8 stones in pit 12, Player 2 skips index 6,
    lands on pit 7 and captures into store 13, value 3 drops a stone into
    index 6 and captures nothing. *)
Lemma other_player_is_not_player_2 :
  let b := [0; 0; 0; 0; 0; 0; 0; 0; 0; 0; 0; 0; 8; 0] in
  make_move init_board 9 2 =
    Return (true, [4; 4; 4; 4; 4; 4; 0; 4; 4; 0; 5; 5; 5; 1], true) /\
  make_move init_board 9 3 =
    Return (true, [4; 4; 4; 4; 4; 4; 0; 4; 4; 0; 5; 5; 5; 1], false) /\
  make_move b 12 2 =
    Return (true, [1; 1; 1; 1; 1; 0; 0; 0; 0; 0; 0; 0; 0; 3], false) /\
  make_move b 12 3 =
    Return (true, [1; 1; 1; 1; 1; 1; 1; 0; 0; 0; 0; 0; 0; 1], false) /\
  make_move init_board 9 3 <> make_move init_board 9 2 /\
  make_move b 12 3 <> make_move b 12 2.
Proof.
  intros b. repeat (split; [reflexivity|]).
  split; vm_compute; discriminate.
Qed.

(** C10, amended: on a 14-position board, a player value other than 1 is
    validated as Player 2 (the move is refused, board unchanged, exactly when
    the pit is outside 7..12 or empty).  A value that is neither 1 nor 2 then
    sows one stone into every successive position, skipping neither index 6
    nor index 13, gets no extra turn and makes no capture. *)
Theorem other_player_behaviour (b : list Z) (pit player : Z) :
  length b = 14%nat -> player <> 1 ->
  (make_move b pit player = Return (false, b, false) <->
   pit < 7 \/ 12 < pit \/ at_ b pit = 0) /\
  (player <> 2 -> 7 <= pit <= 12 -> at_ b pit <> 0 ->
   let sown := sow_every_position (Z.to_nat (at_ b pit)) (upd b pit 0) pit in
   sow b pit player = Return sown /\
   make_move b pit player = Return (true, sown.1, false)).
Proof.
  intros Hb H1.
  assert (Hinv : is_invalid b pit player = true <->
                 pit < 7 \/ 12 < pit \/ at_ b pit = 0).
  { unfold is_invalid. destruct (Z.eqb_spec player 1); [contradiction|].
    destruct (Z.ltb_spec pit 7); destruct (Z.gtb_spec pit 12);
      destruct (Z.eqb_spec (at_ b pit) 0); cbn [orb];
      split; intros ?; try reflexivity; try discriminate; lia. }
  split.
  - destruct (is_invalid b pit player) eqn:Hv.
    + rewrite make_move_invalid by assumption. tauto.
    + destruct (make_move_valid b pit player Hb (fun _ => True) Hv)
        as (bs & idx & s' & _ & Hmove & _); [auto|exact I|].
      rewrite Hmove. split; [discriminate|].
      intros H. apply Hinv in H. discriminate.
  - intros H2 Hpit Hne sown.
    assert (Hv : is_invalid b pit player = false).
    { destruct (is_invalid b pit player); [|reflexivity].
      assert (true = true) as H by reflexivity. apply Hinv in H. lia. }
    assert (Hsow : sow b pit player = Return sown).
    { unfold sow. rewrite getitem_in by lia. cbn [bind].
      rewrite setitem_in by lia. cbn [bind].
      destruct (while_loop (loop_budget (at_ b pit)) player
                  (upd b pit 0, pit, at_ b pit)) as [st'| |] eqn:Hrun.
      - cbn [bind]. f_equal.
        apply (while_loop_every_position player _ H1 H2 _ _ _ _
                 (eq_trans (length_upd b pit 0) Hb) Hrun).
      - destruct (sow_returns b pit player Hb (fun _ => True))
          as (bs & idx & s' & Hs & _); [lia|auto|exact I|].
        unfold sow in Hs. rewrite getitem_in, setitem_in in Hs by lia.
        cbn [bind] in Hs. rewrite Hrun in Hs. discriminate Hs.
      - destruct (sow_returns b pit player Hb (fun _ => True))
          as (bs & idx & s' & Hs & _); [lia|auto|exact I|].
        unfold sow in Hs. rewrite getitem_in, setitem_in in Hs by lia.
        cbn [bind] in Hs. rewrite Hrun in Hs. discriminate Hs. }
    split; [exact Hsow|].
    destruct (sow_returns b pit player Hb (fun _ => True))
      as (bs & idx & s' & Hs & _ & Hbs & Hidx & _); [lia|auto|exact I|].
    rewrite Hsow in Hs. injection Hs as Hs.
    rewrite (make_move_from_sow b pit player bs idx Hb Hv) by
      (try assumption; rewrite Hsow, Hs; reflexivity).
    rewrite capture_result_other_player by assumption.
    rewrite Hs. cbn [fst]. unfold extra_turn_flag.
    destruct (Z.eqb_spec player 1); [contradiction|].
    destruct (Z.eqb_spec player 2); [contradiction|]. reflexivity.
Qed.

Lemma other_player_behaviour_witness :
  let b := [0; 0; 0; 0; 0; 0; 0; 0; 0; 0; 0; 0; 8; 0] in
  length b = 14%nat /\ 3 <> 1 /\ 3 <> 2 /\ 7 <= 12 <= 12 /\ at_ b 12 <> 0 /\
  sow b 12 3 = Return ([1; 1; 1; 1; 1; 1; 1; 0; 0; 0; 0; 0; 0; 1], 6) /\
  make_move b 12 3 =
    Return (true, [1; 1; 1; 1; 1; 1; 1; 0; 0; 0; 0; 0; 0; 1], false).
Proof.
  intros b.
  split; [reflexivity|]. split; [discriminate|]. split; [discriminate|].
  split; [lia|]. split; [discriminate|].
  exact (proj2 (other_player_behaviour b 12 3 eq_refl ltac:(discriminate))
           ltac:(discriminate) ltac:(lia) ltac:(discriminate)).
Defined.

(** * Further properties of the engine and of the driver *)

(** ** Boards reached from the initial one *)

Lemma init_board_shape :
  length init_board = 14%nat /\ nonneg init_board /\ Py.sum init_board = 48.
Proof.
  split; [reflexivity|]. split; [|reflexivity].
  unfold nonneg, init_board. simpl. repeat constructor; discriminate.
Qed.

Lemma nth_le_sum (l : list Z) (k : nat) :
  nonneg l -> nth k l 0 <= Py.sum l.
Proof.
  intros Hl. revert k. induction Hl as [|x l Hx Hl IH]; intros k.
  - destruct k; simpl; lia.
  - assert (0 <= Py.sum l).
    { clear IH. induction Hl; simpl; [lia|]. fold (Py.sum l) in *. lia. }
    destruct k as [|k]; simpl; fold (Py.sum l).
    + lia.
    + specialize (IH k). lia.
Qed.

Lemma at_le_sum (l : list Z) (i : Z) : nonneg l -> at_ l i <= Py.sum l.
Proof.
  intros Hl. unfold at_. destruct (i <? 0).
  - pose proof (nth_le_sum l O Hl).
    assert (0 <= nth 0 l 0); [|lia].
    destruct Hl; simpl; lia.
  - now apply nth_le_sum.
Qed.

(** X1. Every board reached from [init_board()] by calls of [make_move]
    (any pit, any player value) and [collect_remaining_stones] has 14
    counts, each between 0 and 48, and they add up to 48. *)
Theorem boards_of_a_game (b : list Z) :
  plays init_board b ->
  length b = 14%nat /\ Py.sum b = 48 /\
  forall i, 0 <= at_ b i <= 48.
Proof.
  intros Hplay.
  destruct init_board_shape as (Hl & Hn & Hs).
  destruct (plays_keeps init_board b Hplay Hl Hn) as (Hl' & Hn' & Hs').
  split; [exact Hl'|]. split; [congruence|].
  intros i. split; [now apply nonneg_at|].
  pose proof (at_le_sum b i Hn'). lia.
Qed.

Lemma boards_of_a_game_witness :
  plays init_board [4; 4; 0; 5; 5; 5; 1; 4; 4; 4; 4; 4; 4; 0] /\
  Py.sum [4; 4; 0; 5; 5; 5; 1; 4; 4; 4; 4; 4; 4; 0] = 48.
Proof.
  assert (H : plays init_board [4; 4; 0; 5; 5; 5; 1; 4; 4; 4; 4; 4; 4; 0]).
  { apply (plays_move init_board init_board 2 1 true _ true);
      [constructor|reflexivity]. }
  split; [exact H|]. exact (proj1 (proj2 (boards_of_a_game _ H))).
Defined.

(** ** The end of the game *)

Lemma side_zero (x0 x1 x2 x3 x4 x5 : Z) :
  0 <= x0 -> 0 <= x1 -> 0 <= x2 -> 0 <= x3 -> 0 <= x4 -> 0 <= x5 ->
  (Py.sum [x0; x1; x2; x3; x4; x5] = 0 <->
   x0 = 0 /\ x1 = 0 /\ x2 = 0 /\ x3 = 0 /\ x4 = 0 /\ x5 = 0).
Proof. unfold Py.sum. cbn [foldr]. lia. Qed.

Lemma is_game_over_sums (b : list Z) :
  is_game_over b = true <->
  Py.sum (Py.slice b 0 6) = 0 \/ Py.sum (Py.slice b 7 13) = 0.
Proof.
  unfold is_game_over.
  destruct (Z.eqb_spec (Py.sum (Py.slice b 0 6)) 0);
    destruct (Z.eqb_spec (Py.sum (Py.slice b 7 13)) 0); cbn [orb];
    split; intros ?; try reflexivity; try discriminate; tauto.
Qed.

(** X2. On a board of 14 non-negative counts, [is_game_over] is [True]
    exactly when pits 0-5 are all empty or pits 7-12 are all empty. *)
Theorem game_over_iff_a_side_is_empty (b : list Z) :
  length b = 14%nat -> nonneg b ->
  (is_game_over b = true <->
   (forall i, 0 <= i <= 5 -> at_ b i = 0) \/
   (forall i, 7 <= i <= 12 -> at_ b i = 0)).
Proof.
  intros Hb Hnn. rewrite is_game_over_sums.
  destruct (board14 b Hb)
    as (x0 & x1 & x2 & x3 & x4 & x5 & x6 & x7 & x8 & x9 & x10 & x11 & x12
        & x13 & ->).
  unfold nonneg in Hnn. rewrite !Forall_cons in Hnn.
  destruct Hnn as (? & ? & ? & ? & ? & ? & ? & ? & ? & ? & ? & ? & ? & ? & _).
  change (Py.slice [x0; x1; x2; x3; x4; x5; x6; x7; x8; x9; x10; x11; x12;
                    x13] 0 6) with [x0; x1; x2; x3; x4; x5].
  change (Py.slice [x0; x1; x2; x3; x4; x5; x6; x7; x8; x9; x10; x11; x12;
                    x13] 7 13) with [x7; x8; x9; x10; x11; x12].
  rewrite !side_zero by assumption.
  split.
  - intros [Hz|Hz]; [left|right]; intros i Hi;
      destruct Hz as (-> & -> & -> & -> & -> & ->).
    + assert (Hc : i = 0 \/ i = 1 \/ i = 2 \/ i = 3 \/ i = 4 \/ i = 5)
        by lia.
      repeat (destruct Hc as [->|Hc]); try subst i; reflexivity.
    + assert (Hc : i = 7 \/ i = 8 \/ i = 9 \/ i = 10 \/ i = 11 \/ i = 12)
        by lia.
      repeat (destruct Hc as [->|Hc]); try subst i; reflexivity.
  - intros [Hz|Hz]; [left|right].
    + repeat split;
        [apply (Hz 0)|apply (Hz 1)|apply (Hz 2)|apply (Hz 3)|apply (Hz 4)
        |apply (Hz 5)]; lia.
    + repeat split;
        [apply (Hz 7)|apply (Hz 8)|apply (Hz 9)|apply (Hz 10)|apply (Hz 11)
        |apply (Hz 12)]; lia.
Qed.

Lemma game_over_iff_a_side_is_empty_witness :
  let b := [0; 0; 0; 0; 0; 0; 20; 3; 0; 0; 5; 0; 0; 20] in
  length b = 14%nat /\ nonneg b /\ is_game_over b = true.
Proof.
  intros b.
  assert (Hnn : nonneg b).
  { unfold nonneg, b. repeat constructor; discriminate. }
  split; [reflexivity|]. split; [exact Hnn|].
  apply (game_over_iff_a_side_is_empty b eq_refl Hnn).
  left. intros i Hi.
  assert (Hc : i = 0 \/ i = 1 \/ i = 2 \/ i = 3 \/ i = 4 \/ i = 5) by lia.
  repeat (destruct Hc as [->|Hc]); try subst i; reflexivity.
Defined.

Lemma nonzero_side (x0 x1 x2 x3 x4 x5 : Z) :
  Py.sum [x0; x1; x2; x3; x4; x5] <> 0 ->
  x0 <> 0 \/ x1 <> 0 \/ x2 <> 0 \/ x3 <> 0 \/ x4 <> 0 \/ x5 <> 0.
Proof. unfold Py.sum. cbn [foldr]. lia. Qed.

Lemma accepted_when_allowed (b : list Z) (pit player : Z) :
  length b = 14%nat -> is_invalid b pit player = false ->
  exists b' e, make_move b pit player = Return (true, b', e).
Proof.
  intros Hb Hv.
  destruct (make_move_valid b pit player Hb (fun _ => True) Hv)
    as (bs & idx & s' & _ & Hmove & _); [auto|exact I|]. eauto.
Qed.

(** X3. No dead end: on a 14-position board for which [is_game_over] is
    [False], the player to move, whatever its value, has a pit of its own
    range that [make_move] accepts. *)
Theorem a_move_exists_until_game_over (b : list Z) (player : Z) :
  length b = 14%nat -> is_game_over b = false ->
  exists pit b' e,
    (if player =? 1 then 0 <= pit <= 5 else 7 <= pit <= 12) /\
    make_move b pit player = Return (true, b', e).
Proof.
  intros Hb Hover.
  assert (Hs : Py.sum (Py.slice b 0 6) <> 0 /\
               Py.sum (Py.slice b 7 13) <> 0).
  { pose proof (is_game_over_sums b) as H. rewrite Hover in H.
    split; intros E; assert (false = true) by (apply H; tauto);
      discriminate. }
  destruct (board14 b Hb)
    as (x0 & x1 & x2 & x3 & x4 & x5 & x6 & x7 & x8 & x9 & x10 & x11 & x12
        & x13 & E).
  subst b. destruct Hs as [Hs1 Hs2].
  apply nonzero_side in Hs1. apply nonzero_side in Hs2.
  set (b := [x0; x1; x2; x3; x4; x5; x6; x7; x8; x9; x10; x11; x12; x13])
    in *.
  assert (Hpit : exists pit,
            (if player =? 1 then 0 <= pit <= 5 else 7 <= pit <= 12) /\
            is_invalid b pit player = false).
  { unfold is_invalid. destruct (player =? 1).
    - destruct Hs1 as [H|[H|[H|[H|[H|H]]]]];
        [exists 0|exists 1|exists 2|exists 3|exists 4|exists 5];
        (split; [lia|]); cbn [Z.ltb Z.gtb Z.compare orb];
        apply Z.eqb_neq; exact H.
    - destruct Hs2 as [H|[H|[H|[H|[H|H]]]]];
        [exists 7|exists 8|exists 9|exists 10|exists 11|exists 12];
        (split; [lia|]); cbn [Z.ltb Z.gtb Z.compare Pos.compare
                              Pos.compare_cont orb];
        apply Z.eqb_neq; exact H. }
  destruct Hpit as (pit & Hrange & Hv).
  destruct (accepted_when_allowed b pit player Hb Hv) as (b' & e & Hmove).
  exists pit, b', e. auto.
Qed.

Lemma a_move_exists_until_game_over_witness :
  length init_board = 14%nat /\ is_game_over init_board = false /\
  exists pit b' e,
    7 <= pit <= 12 /\ make_move init_board pit 2 = Return (true, b', e).
Proof.
  split; [reflexivity|]. split; [reflexivity|].
  exact (a_move_exists_until_game_over init_board 2 eq_refl eq_refl).
Defined.

Lemma get_winner_returns (b : list Z) :
  length b = 14%nat ->
  get_winner b =
    Return (if at_ b 6 >? at_ b 13 then 1
            else if at_ b 13 >? at_ b 6 then 2 else 0).
Proof.
  intros Hb. unfold get_winner. run_board.
  destruct (at_ b 6 >? at_ b 13); [reflexivity|]. run_board.
  destruct (at_ b 13 >? at_ b 6); reflexivity.
Qed.

Lemma stores_of_swept_board (b : list Z) :
  length b = 14%nat ->
  (forall i, 0 <= i <= 5 \/ 7 <= i <= 12 -> at_ b i = 0) ->
  Py.sum b = at_ b 6 + at_ b 13.
Proof.
  intros Hb Hz.
  destruct (board14 b Hb)
    as (x0 & x1 & x2 & x3 & x4 & x5 & x6 & x7 & x8 & x9 & x10 & x11 & x12
        & x13 & ->).
  pose proof (Hz 0 ltac:(lia)) as H0. pose proof (Hz 1 ltac:(lia)) as H1.
  pose proof (Hz 2 ltac:(lia)) as H2. pose proof (Hz 3 ltac:(lia)) as H3.
  pose proof (Hz 4 ltac:(lia)) as H4. pose proof (Hz 5 ltac:(lia)) as H5.
  pose proof (Hz 7 ltac:(lia)) as H7. pose proof (Hz 8 ltac:(lia)) as H8.
  pose proof (Hz 9 ltac:(lia)) as H9. pose proof (Hz 10 ltac:(lia)) as H10.
  pose proof (Hz 11 ltac:(lia)) as H11. pose proof (Hz 12 ltac:(lia)) as H12.
  change (x0 = 0) in H0. change (x1 = 0) in H1. change (x2 = 0) in H2.
  change (x3 = 0) in H3. change (x4 = 0) in H4. change (x5 = 0) in H5.
  change (x7 = 0) in H7. change (x8 = 0) in H8. change (x9 = 0) in H9.
  change (x10 = 0) in H10. change (x11 = 0) in H11. change (x12 = 0) in H12.
  subst. change (x6 + (x13 + 0) = x6 + x13). lia.
Qed.

Lemma sweep_then_winner (b : list Z) :
  length b = 14%nat -> Py.sum b = 48 ->
  exists b' w,
    collect_remaining_stones b = Return b' /\
    get_winner b' = Return w /\
    length b' = 14%nat /\
    (forall i, 0 <= i <= 5 \/ 7 <= i <= 12 -> at_ b' i = 0) /\
    at_ b' 6 + at_ b' 13 = 48 /\
    (w = 1 <-> 24 < at_ b' 6) /\
    (w = 2 <-> 24 < at_ b' 13) /\
    (w = 0 <-> at_ b' 6 = 24 /\ at_ b' 13 = 24).
Proof.
  intros Hb Hsum.
  destruct (collect_returns b Hb)
    as (b' & Hcol & Hb' & Hs & _ & _ & _ & Hz & _).
  pose proof (stores_of_swept_board b' Hb' Hz) as Hst.
  exists b', (if at_ b' 6 >? at_ b' 13 then 1
              else if at_ b' 13 >? at_ b' 6 then 2 else 0).
  split; [exact Hcol|]. split; [now apply get_winner_returns|].
  split; [exact Hb'|]. split; [exact Hz|]. split; [lia|].
  destruct (Z.gtb_spec (at_ b' 6) (at_ b' 13));
    [|destruct (Z.gtb_spec (at_ b' 13) (at_ b' 6))]; lia.
Qed.

(** X4. Scoring: on a 14-position board that sums to 48,
    [collect_remaining_stones] followed by [get_winner] returns; the two
    stores then hold all 48 stones, and the result is 1 exactly when store 6
    holds more than 24, 2 exactly when store 13 holds more than 24, and 0
    exactly when each holds 24. *)
Theorem winner_holds_the_majority (b : list Z) :
  length b = 14%nat -> Py.sum b = 48 ->
  exists b' w,
    collect_remaining_stones b = Return b' /\
    get_winner b' = Return w /\
    at_ b' 6 + at_ b' 13 = 48 /\
    (w = 1 <-> 24 < at_ b' 6) /\
    (w = 2 <-> 24 < at_ b' 13) /\
    (w = 0 <-> at_ b' 6 = 24 /\ at_ b' 13 = 24).
Proof.
  intros Hb Hsum.
  destruct (sweep_then_winner b Hb Hsum)
    as (b' & w & Hcol & Hwin & _ & _ & Hst & Hw).
  exists b', w. auto.
Qed.

Lemma winner_holds_the_majority_witness :
  let b := [0; 0; 0; 0; 0; 0; 21; 1; 0; 2; 0; 0; 4; 20] in
  length b = 14%nat /\ Py.sum b = 48 /\
  exists b' w,
    collect_remaining_stones b = Return b' /\
    get_winner b' = Return w /\
    at_ b' 6 + at_ b' 13 = 48 /\
    (w = 1 <-> 24 < at_ b' 6) /\
    (w = 2 <-> 24 < at_ b' 13) /\
    (w = 0 <-> at_ b' 6 = 24 /\ at_ b' 13 = 24).
Proof.
  intros b. split; [reflexivity|]. split; [reflexivity|].
  exact (winner_holds_the_majority b eq_refl eq_refl).
Defined.

(** X5. After the sweep nothing can be played: on a 14-position board, the
    board returned by [collect_remaining_stones] satisfies [is_game_over],
    and [make_move] refuses every pit for every player value, leaving it
    unchanged. *)
Theorem no_move_after_the_sweep (b : list Z) :
  length b = 14%nat ->
  exists b',
    collect_remaining_stones b = Return b' /\
    is_game_over b' = true /\
    forall pit player, make_move b' pit player = Return (false, b', false).
Proof.
  intros Hb.
  destruct (collect_returns b Hb)
    as (b' & Hcol & Hb' & _ & _ & _ & _ & Hz & _).
  exists b'. split; [exact Hcol|]. split.
  - apply is_game_over_sums. left.
    destruct (board14 b' Hb')
      as (x0 & x1 & x2 & x3 & x4 & x5 & x6 & x7 & x8 & x9 & x10 & x11 & x12
          & x13 & ->).
    pose proof (Hz 0 ltac:(lia)) as H0. pose proof (Hz 1 ltac:(lia)) as H1.
    pose proof (Hz 2 ltac:(lia)) as H2. pose proof (Hz 3 ltac:(lia)) as H3.
    pose proof (Hz 4 ltac:(lia)) as H4. pose proof (Hz 5 ltac:(lia)) as H5.
    change (x0 = 0) in H0. change (x1 = 0) in H1. change (x2 = 0) in H2.
    change (x3 = 0) in H3. change (x4 = 0) in H4. change (x5 = 0) in H5.
    subst. reflexivity.
  - intros pit player. apply make_move_invalid; [exact Hb'|].
    unfold is_invalid.
    destruct (player =? 1).
    + destruct (Z.ltb_spec pit 0); [reflexivity|].
      destruct (Z.gtb_spec pit 5); [reflexivity|].
      rewrite Hz by lia. reflexivity.
    + destruct (Z.ltb_spec pit 7); [reflexivity|].
      destruct (Z.gtb_spec pit 12); [reflexivity|].
      rewrite Hz by lia. reflexivity.
Qed.

Lemma no_move_after_the_sweep_witness :
  length init_board = 14%nat /\
  exists b',
    collect_remaining_stones init_board = Return b' /\
    is_game_over b' = true /\
    forall pit player, make_move b' pit player = Return (false, b', false).
Proof.
  split; [reflexivity|]. exact (no_move_after_the_sweep init_board eq_refl).
Defined.

(** ** Scores only grow *)

Lemma pass_stores_kept (b : list Z) (player : Z) (st : loop_state) :
  length st.1.1 = 14%nat -> st.2 > 0 ->
  stores_kept b st -> stores_kept b (pass player st).
Proof.
  destruct st as [[bc i] s]. unfold stores_kept. cbn [fst snd].
  intros Hl Hs [H6 H13].
  destruct (pass_cases player bc i s Hl) as [Hj [[_ ->]|[_ ->]]];
    cbn [fst snd]; [auto|].
  set (j := (i + 1) mod 14) in *.
  rewrite (at_upd bc j 6), (at_upd bc j 13) by lia.
  destruct (Z.eqb_spec 6 j) as [E6|]; destruct (Z.eqb_spec 13 j) as [E13|];
    try rewrite <- E6; try rewrite <- E13; lia.
Qed.

Lemma capture_result_stores (bs : list Z) (idx player k : Z) :
  length bs = 14%nat -> k = 6 \/ k = 13 ->
  at_ bs k <= at_ (capture_result bs idx player) k.
Proof.
  intros Hbs Hk.
  destruct (capture_result_cases bs idx player)
    as [(store & Hf & ->)|[_ ->]]; [|lia].
  unfold fires in Hf. rewrite captured_at by lia.
  destruct (Z.eqb_spec k (12 - idx)); [lia|].
  destruct (Z.eqb_spec k idx); [lia|].
  destruct (Z.eqb_spec k store); [subst k|]; lia.
Qed.

Lemma make_move_stores (b : list Z) (pit player : Z) :
  length b = 14%nat ->
  exists v b' e,
    make_move b pit player = Return (v, b', e) /\
    at_ b 6 <= at_ b' 6 /\ at_ b 13 <= at_ b' 13.
Proof.
  intros Hb. destruct (is_invalid b pit player) eqn:Hv.
  - exists false, b, false. rewrite make_move_invalid by assumption.
    split; [reflexivity|lia].
  - destruct (is_invalid_false b pit player Hv) as (Hpit & _ & Hown).
    destruct (make_move_valid b pit player Hb (stores_kept b) Hv)
      as (bs & idx & s' & _ & Hmove & [H6 H13] & Hbs & _).
    + intros st. apply pass_stores_kept.
    + unfold stores_kept. cbn [fst]. rewrite !at_upd_ne by lia. lia.
    + cbn [fst] in *.
      exists true, (capture_result bs idx player),
        (extra_turn_flag idx player).
      split; [exact Hmove|].
      pose proof (capture_result_stores bs idx player 6 Hbs ltac:(auto)).
      pose proof (capture_result_stores bs idx player 13 Hbs ltac:(auto)).
      lia.
Qed.

(** X6. Scores only grow: [make_move] on a 14-position board, with any pit
    and any player value, never lowers store 6 or store 13; and through any
    sequence of calls of [make_move] and [collect_remaining_stones] from a
    board of 14 non-negative counts, neither store ever holds less than
    before. *)
Theorem stores_never_decrease (b : list Z) :
  length b = 14%nat ->
  (forall pit player, exists v b' e,
     make_move b pit player = Return (v, b', e) /\
     at_ b 6 <= at_ b' 6 /\ at_ b 13 <= at_ b' 13) /\
  (nonneg b ->
   forall b', plays b b' -> at_ b 6 <= at_ b' 6 /\ at_ b 13 <= at_ b' 13).
Proof.
  intros Hb. split; [intros pit player; now apply make_move_stores|].
  intros Hnn b' Hplay.
  induction Hplay as [|b1 pit player v b2 e Hp IH Hmove|b1 b2 Hp IH Hcol].
  - lia.
  - destruct (plays_keeps b b1 Hp Hb Hnn) as (Hl1 & _).
    destruct (make_move_stores b1 pit player Hl1)
      as (v' & b2' & e' & Hmove' & H6 & H13).
    rewrite Hmove in Hmove'. injection Hmove' as <- <- <-. lia.
  - destruct (plays_keeps b b1 Hp Hb Hnn) as (Hl1 & Hn1 & _).
    destruct (collect_returns b1 Hl1)
      as (b2' & Hcol' & _ & _ & _ & H6 & H13 & _).
    rewrite Hcol in Hcol'. injection Hcol' as <-.
    pose proof (nonneg_at b1 0 Hn1). pose proof (nonneg_at b1 1 Hn1).
    pose proof (nonneg_at b1 2 Hn1). pose proof (nonneg_at b1 3 Hn1).
    pose proof (nonneg_at b1 4 Hn1). pose proof (nonneg_at b1 5 Hn1).
    pose proof (nonneg_at b1 7 Hn1). pose proof (nonneg_at b1 8 Hn1).
    pose proof (nonneg_at b1 9 Hn1). pose proof (nonneg_at b1 10 Hn1).
    pose proof (nonneg_at b1 11 Hn1). pose proof (nonneg_at b1 12 Hn1).
    lia.
Qed.

Lemma stores_never_decrease_witness :
  let b := [13; 0; 0; 0; 0; 0; 5; 0; 0; 0; 0; 0; 0; 30] in
  length b = 14%nat /\
  exists v b' e,
    make_move b 0 1 = Return (v, b', e) /\
    at_ b 6 <= at_ b' 6 /\ at_ b 13 <= at_ b' 13.
Proof.
  intros b. split; [reflexivity|].
  exact (proj1 (stores_never_decrease b eq_refl) 0 1).
Defined.

(** ** Where the stones go *)

Lemma deposits_hit (d m : Z) :
  0 <= d -> m = d mod 13 -> (d + 1 + 12 - m) / 13 = (d + 12 - m) / 13 + 1.
Proof. intros Hd ->. Z.div_mod_to_equations. lia. Qed.

Lemma deposits_miss (d m : Z) :
  0 <= d -> 0 <= m < 13 -> m <> d mod 13 ->
  (d + 1 + 12 - m) / 13 = (d + 12 - m) / 13.
Proof. intros Hd Hm Hne. Z.div_mod_to_equations. lia. Qed.

Section Rank.

Variable player : Z.
Hypothesis Hplayer : player = 1 \/ player = 2.

Lemma rank_range j : 0 <= j < 14 -> 0 <= rank player j < 14.
Proof using Type.
  clear Hplayer. intros Hj. unfold rank. destruct (player =? 1); [lia|].
  apply Z.mod_pos_bound. lia.
Qed.

Lemma rank_skips j :
  0 <= j < 14 -> skips player j = (rank player j =? 13).
Proof using Hplayer.
  intros Hj. unfold skips, rank.
  destruct Hplayer as [-> | ->]; cbn [Z.eqb Pos.eqb andb orb].
  - rewrite orb_false_r. reflexivity.
  - destruct (Z.eqb_spec j 6) as [->|Hne]; [reflexivity|].
    symmetry. apply Z.eqb_neq. Z.div_mod_to_equations. lia.
Qed.

Lemma rank_next i :
  0 <= i < 14 -> rank player ((i + 1) mod 14) = (rank player i + 1) mod 14.
Proof using Type.
  clear Hplayer. intros Hi. unfold rank. destruct (player =? 1);
    [reflexivity|].
  Z.div_mod_to_equations. lia.
Qed.

Lemma rank_inj j j' :
  0 <= j < 14 -> 0 <= j' < 14 -> rank player j = rank player j' -> j = j'.
Proof using Type.
  clear Hplayer. unfold rank. destruct (player =? 1); [lia|].
  intros Hj Hj'. Z.div_mod_to_equations. lia.
Qed.

Variables (pit stones : Z) (b : list Z).
Hypothesis Hpit : 0 <= pit < 14.
Hypothesis Hown : rank player pit <= 12.

Lemma pass_sow_inv st :
  length st.1.1 = 14%nat -> st.2 > 0 ->
  sow_inv player pit stones b st ->
  sow_inv player pit stones b (pass player st).
Proof using Hplayer Hpit Hown.
  destruct st as [[bc i] s]. unfold sow_inv. cbn [fst snd].
  intros Hl Hs (Hrange & Hi & H13 & He & Hcnt).
  pose proof (rank_range pit Hpit) as Hrp.
  pose proof (rank_range i Hi) as Hri.
  pose proof (rank_next i Hi) as Hnext.
  destruct (pass_cases player bc i s Hl) as [Hj [[Hskip ->]|[Hskip ->]]];
    cbn [fst snd]; rewrite rank_skips in Hskip by exact Hj;
    set (j' := (i + 1) mod 14) in *;
    set (rp := rank player pit) in *; set (ri := rank player i) in *;
    set (rj' := rank player j') in *.
  - apply Z.eqb_eq in Hskip. rewrite Hskip, Z.eqb_refl.
    assert (ri = 12) by (Z.div_mod_to_equations; lia).
    split; [lia|]. split; [lia|]. split; [lia|]. split; [|exact Hcnt].
    destruct (Z.eqb_spec ri 13); lia.
  - apply Z.eqb_neq in Hskip.
    destruct (Z.eqb_spec rj' 13) as [|_]; [contradiction|].
    assert (Hrj' : rj' = (rp + (stones - s) + 1) mod 13).
    { destruct (Z.eqb_spec ri 13); Z.div_mod_to_equations; lia. }
    replace (stones - (s - 1)) with (stones - s + 1) by lia.
    split; [lia|]. split; [lia|]. split; [lia|].
    split; [rewrite Hrj' at 1; f_equal; lia|].
    intros j Hj0. rewrite at_upd by lia. rewrite (Hcnt j Hj0), (Hcnt j' Hj).
    unfold deposits.
    rewrite !rank_skips by assumption. fold rj'.
    destruct (Z.eqb_spec rj' 13); [contradiction|].
    pose proof (rank_range j Hj0) as Hrj.
    destruct (Z.eqb_spec j j') as [->|Hne].
    + fold rj'. destruct (Z.eqb_spec rj' 13); [contradiction|].
      rewrite (deposits_hit (stones - s)); [lia|lia|].
      fold rp. Z.div_mod_to_equations. lia.
    + destruct (Z.eqb_spec (rank player j) 13); [lia|].
      assert (Hrne : rank player j <> rj').
      { intros E. apply Hne. now apply rank_inj. }
      fold rp. rewrite (deposits_miss (stones - s)); [lia|lia| |].
      * apply Z.mod_pos_bound. lia.
      * Z.div_mod_to_equations. lia.
Qed.

End Rank.

Lemma sow_closed_form (b : list Z) (pit player : Z) :
  length b = 14%nat -> player = 1 \/ player = 2 ->
  refused b pit player = Return false -> 0 < at_ b pit ->
  exists bs,
    sow b pit player = Return (bs, landing player pit (at_ b pit)) /\
    length bs = 14%nat /\
    0 <= landing player pit (at_ b pit) < 14 /\
    skips player (landing player pit (at_ b pit)) = false /\
    forall j, 0 <= j < 14 ->
      at_ bs j = (if j =? pit then 0 else at_ b j) +
                 deposits player pit (at_ b pit) j.
Proof.
  intros Hb Hp Href Hpos.
  assert (Hv : is_invalid b pit player = false).
  { rewrite (refused_is_invalid b pit player Hb) in Href.
    now injection Href. }
  destruct (is_invalid_false b pit player Hv) as (Hpit & _ & Hrange).
  set (stones := at_ b pit) in *.
  assert (Hown : rank player pit <= 12).
  { unfold rank. destruct Hrange as [[-> ?]|[? ?]]; [simpl; lia|].
    destruct (Z.eqb_spec player 1); [contradiction|].
    Z.div_mod_to_equations. lia. }
  pose proof (rank_range player pit Hpit) as Hrp.
  destruct (sow_returns b pit player Hb (sow_inv player pit stones b) Hpit)
    as (bs & idx & s' & Hsow & Hinv & Hbs & Hidx & Hs').
  - intros st. now apply pass_sow_inv.
  - unfold sow_inv. cbn [fst snd]. fold stones.
    replace (stones - stones) with 0 by lia.
    split; [lia|]. split; [lia|]. split; [lia|]. split.
    + destruct (Z.eqb_spec (rank player pit) 13); [lia|].
      rewrite Z.add_0_r. symmetry. apply Z.mod_small. lia.
    + intros j Hj. rewrite at_upd by lia.
      assert (deposits player pit 0 j = 0) as ->; [|lia].
      unfold deposits. destruct (skips player j); [reflexivity|].
      pose proof (Z.mod_pos_bound (rank player j - rank player pit - 1) 13).
      apply Z.div_small. lia.
  - unfold sow_inv in Hinv. cbn [fst snd] in Hinv.
    destruct Hinv as (Hrange' & _ & H13 & He & Hcnt).
    assert (s' = 0) as -> by lia.
    replace (stones - 0) with stones in * by lia.
    pose proof (rank_range player idx Hidx) as Hri.
    destruct (Z.eqb_spec (rank player idx) 13) as [E|Hne];
      [specialize (H13 E); lia|].
    assert (Hland : idx = landing player pit stones).
    { unfold landing, rank in *.
      destruct Hrange as [[-> ?]|[? ?]]; [simpl in *; lia|].
      destruct (Z.eqb_spec player 1); [contradiction|].
      Z.div_mod_to_equations. lia. }
    rewrite <- Hland. exists bs.
    split; [exact Hsow|]. split; [exact Hbs|]. split; [exact Hidx|].
    split; [|exact Hcnt].
    rewrite rank_skips by assumption. now apply Z.eqb_neq.
Qed.

Lemma stones_count_in_pit (b : list Z) (pit player : Z) :
  length b = 14%nat -> player = 1 \/ player = 2 ->
  refused b pit player = Return false -> 0 < at_ b pit ->
  exists bs idx,
    sow b pit player = Return (bs, idx) /\
    length bs = 14%nat /\ 0 <= idx < 14 /\ 0 <= pit < 14 /\
    (player = 1 /\ 0 <= pit <= 5 \/ player = 2 /\ 7 <= pit <= 12) /\
    at_ bs pit = at_ b pit / 13.
Proof.
  intros Hb Hp Href Hpos.
  destruct (sow_closed_form b pit player Hb Hp Href Hpos)
    as (bs & Hsow & Hbs & Hidx & _ & Hcnt).
  assert (Hv : is_invalid b pit player = false).
  { rewrite (refused_is_invalid b pit player Hb) in Href.
    now injection Href. }
  destruct (is_invalid_false b pit player Hv) as (Hpit & _ & Hrange).
  exists bs, (landing player pit (at_ b pit)).
  split; [exact Hsow|]. split; [exact Hbs|]. split; [exact Hidx|].
  split; [exact Hpit|]. split; [lia|].
  rewrite (Hcnt pit Hpit), Z.eqb_refl. unfold deposits.
  assert (skips player pit = false) as ->.
  { unfold skips.
    destruct (Z.eqb_spec pit 13); destruct (Z.eqb_spec pit 6);
      destruct (Z.eqb_spec player 1); destruct (Z.eqb_spec player 2);
      cbn [andb orb]; try reflexivity; lia. }
  replace (rank player pit - rank player pit - 1) with (-1) by lia.
  change ((-1) mod 13) with 12.
  replace (at_ b pit + 12 - 12) with (at_ b pit) by lia. lia.
Qed.

(** X7. Landing position: for a move of Player 1 or Player 2 that passes
    validation from a pit holding [stones > 0] on a 14-position board, the
    last stone lands on index [(pit + stones) mod 13] for Player 1 and on
    index [((pit - 7 + stones) mod 13 + 7) mod 14] for Player 2; so
    [make_move] grants the extra turn exactly when [(pit + stones) mod 13]
    is 6 for Player 1, and when [(pit - 7 + stones) mod 13] is 6 for
    Player 2. *)
Theorem last_stone_lands (b : list Z) (pit player : Z) :
  length b = 14%nat -> player = 1 \/ player = 2 ->
  refused b pit player = Return false -> 0 < at_ b pit ->
  let stones := at_ b pit in
  exists bs idx b' e,
    sow b pit player = Return (bs, idx) /\
    make_move b pit player = Return (true, b', e) /\
    idx = landing player pit stones /\
    (player = 1 ->
     idx = (pit + stones) mod 13 /\
     (e = true <-> (pit + stones) mod 13 = 6)) /\
    (player = 2 ->
     idx = ((pit - 7 + stones) mod 13 + 7) mod 14 /\
     (e = true <-> (pit - 7 + stones) mod 13 = 6)).
Proof.
  intros Hb Hp Href Hpos stones.
  destruct (sow_closed_form b pit player Hb Hp Href Hpos)
    as (bs & Hsow & Hbs & Hidx & _). fold stones in Hsow, Hidx.
  assert (Hv : is_invalid b pit player = false).
  { rewrite (refused_is_invalid b pit player Hb) in Href.
    now injection Href. }
  pose proof (make_move_from_sow b pit player bs _ Hb Hv Hsow Hbs Hidx)
    as Hmove.
  exists bs, (landing player pit stones),
    (capture_result bs (landing player pit stones) player),
    (extra_turn_flag (landing player pit stones) player).
  split; [exact Hsow|]. split; [exact Hmove|]. split; [reflexivity|].
  unfold extra_turn_flag, landing in *.
  split; intros ->; cbn [Z.eqb Pos.eqb andb orb] in *.
  - split; [reflexivity|]. rewrite orb_false_r.
    apply Z.eqb_eq.
  - split; [reflexivity|]. rewrite Z.eqb_eq.
    Z.div_mod_to_equations. lia.
Qed.

Lemma last_stone_lands_witness :
  let b := [0; 0; 0; 0; 0; 0; 0; 0; 0; 0; 0; 28; 0; 20] in
  length b = 14%nat /\ (2 = 1 \/ 2 = 2) /\
  refused b 11 2 = Return false /\ 0 < at_ b 11 /\
  exists bs idx b' e,
    sow b 11 2 = Return (bs, idx) /\
    make_move b 11 2 = Return (true, b', e) /\
    idx = 13 /\ e = true.
Proof.
  intros b.
  split; [reflexivity|]. split; [right; reflexivity|].
  split; [reflexivity|]. split; [reflexivity|].
  destruct (last_stone_lands b 11 2 eq_refl (or_intror eq_refl) eq_refl
              eq_refl) as (bs & idx & b' & e & Hsow & Hmove & _ & _ & H2).
  destruct (H2 eq_refl) as [Hidx He].
  exists bs, idx, b', e.
  split; [exact Hsow|]. split; [exact Hmove|]. split; [exact Hidx|].
  apply He. reflexivity.
Defined.

(** X8. Where the stones go: for a move of Player 1 or Player 2 that passes
    validation from a pit holding [stones > 0] on a 14-position board, the
    board after sowing holds at each index [j] what it held before (0 for
    the pit played) plus [deposits player pit stones j].  The sowing is
    even: the opponent's store receives nothing, every other position
    receives [stones / 13] or [stones / 13 + 1] stones, and the pit played
    receives [stones / 13]. *)
Theorem stones_are_sown_evenly (b : list Z) (pit player : Z) :
  length b = 14%nat -> player = 1 \/ player = 2 ->
  refused b pit player = Return false -> 0 < at_ b pit ->
  let stones := at_ b pit in
  exists bs idx,
    sow b pit player = Return (bs, idx) /\
    (forall j, 0 <= j < 14 ->
       at_ bs j = (if j =? pit then 0 else at_ b j) +
                  deposits player pit stones j) /\
    (forall j, 0 <= j < 14 ->
       if skips player j then deposits player pit stones j = 0
       else stones / 13 <= deposits player pit stones j <= stones / 13 + 1) /\
    at_ bs pit = stones / 13.
Proof.
  intros Hb Hp Href Hpos stones.
  destruct (sow_closed_form b pit player Hb Hp Href Hpos)
    as (bs & Hsow & _ & _ & _ & Hcnt). fold stones in Hsow, Hcnt.
  assert (Hv : is_invalid b pit player = false).
  { rewrite (refused_is_invalid b pit player Hb) in Href.
    now injection Href. }
  destruct (is_invalid_false b pit player Hv) as (Hpit & _ & Hrange).
  exists bs, (landing player pit stones).
  split; [exact Hsow|]. split; [exact Hcnt|]. split.
  - intros j Hj. unfold deposits. destruct (skips player j); [reflexivity|].
    pose proof (Z.mod_pos_bound (rank player j - rank player pit - 1) 13).
    Z.div_mod_to_equations. lia.
  - rewrite (Hcnt pit Hpit), Z.eqb_refl. unfold deposits.
    assert (skips player pit = false) as ->.
    { unfold skips.
      destruct (Z.eqb_spec pit 13); destruct (Z.eqb_spec pit 6);
        destruct (Z.eqb_spec player 1); destruct (Z.eqb_spec player 2);
        cbn [andb orb]; try reflexivity; lia. }
    replace (rank player pit - rank player pit - 1) with (-1) by lia.
    change ((-1) mod 13) with 12. subst stones.
    replace (at_ b pit + 12 - 12) with (at_ b pit) by lia. lia.
Qed.

Lemma stones_are_sown_evenly_witness :
  let b := [0; 0; 0; 0; 0; 30; 0; 0; 0; 0; 0; 0; 18; 0] in
  length b = 14%nat /\ (1 = 1 \/ 1 = 2) /\
  refused b 5 1 = Return false /\ 0 < at_ b 5 /\
  exists bs idx,
    sow b 5 1 = Return (bs, idx) /\
    (forall j, 0 <= j < 14 ->
       at_ bs j = (if j =? 5 then 0 else at_ b j) + deposits 1 5 30 j) /\
    at_ bs 5 = 2.
Proof.
  intros b.
  split; [reflexivity|]. split; [left; reflexivity|].
  split; [reflexivity|]. split; [reflexivity|].
  destruct (stones_are_sown_evenly b 5 1 eq_refl (or_introl eq_refl)
              eq_refl eq_refl) as (bs & idx & Hsow & Hcnt & _ & H5).
  exists bs, idx. split; [exact Hsow|]. split; [exact Hcnt|exact H5].
Defined.

(** X9. A move is never a no-op: after a move of Player 1 or Player 2
    accepted from a pit holding [stones > 0] on a 14-position board, the
    returned board holds [stones / 13] stones in that pit, or 0 when a
    capture emptied it; in either case fewer than before. *)
Theorem played_pit_shrinks (b : list Z) (pit player : Z) :
  length b = 14%nat -> player = 1 \/ player = 2 ->
  refused b pit player = Return false -> 0 < at_ b pit ->
  exists b' e,
    make_move b pit player = Return (true, b', e) /\
    (at_ b' pit = at_ b pit / 13 \/ at_ b' pit = 0) /\
    at_ b' pit < at_ b pit /\ b' <> b.
Proof.
  intros Hb Hp Href Hpos.
  destruct (stones_count_in_pit b pit player Hb Hp Href Hpos)
    as (bs & idx & Hsow & Hbs & Hidx & Hpit & Hown & H13).
  assert (Hv : is_invalid b pit player = false).
  { rewrite (refused_is_invalid b pit player Hb) in Href.
    now injection Href. }
  pose proof (make_move_from_sow b pit player bs idx Hb Hv Hsow Hbs Hidx)
    as Hmove.
  exists (capture_result bs idx player), (extra_turn_flag idx player).
  split; [exact Hmove|].
  assert (Hcase : at_ (capture_result bs idx player) pit = at_ b pit / 13 \/
                  at_ (capture_result bs idx player) pit = 0).
  { destruct (capture_result_cases bs idx player)
      as [(store & Hf & ->)|[_ ->]]; [|left; exact H13].
    unfold fires in Hf. rewrite captured_at by lia.
    destruct (Z.eqb_spec pit (12 - idx)); [right; reflexivity|].
    destruct (Z.eqb_spec pit idx); [right; reflexivity|].
    destruct (Z.eqb_spec pit store); [lia|left; exact H13]. }
  split; [exact Hcase|].
  assert (Hlt : at_ (capture_result bs idx player) pit < at_ b pit).
  { assert (at_ b pit / 13 < at_ b pit)
      by (apply Z.div_lt_upper_bound; lia).
    lia. }
  split; [exact Hlt|].
  intros E. rewrite E in Hlt. lia.
Qed.

Lemma played_pit_shrinks_witness :
  let b := [13; 0; 0; 0; 0; 0; 5; 0; 0; 0; 0; 0; 0; 30] in
  length b = 14%nat /\ (1 = 1 \/ 1 = 2) /\
  refused b 0 1 = Return false /\ 0 < at_ b 0 /\
  exists b' e,
    make_move b 0 1 = Return (true, b', e) /\
    (at_ b' 0 = 1 \/ at_ b' 0 = 0) /\ at_ b' 0 < 13 /\ b' <> b.
Proof.
  intros b.
  split; [reflexivity|]. split; [left; reflexivity|].
  split; [reflexivity|]. split; [reflexivity|].
  exact (played_pit_shrinks b 0 1 eq_refl (or_introl eq_refl) eq_refl
           eq_refl).
Defined.

(** ** The driver *)

Lemma ask_move_shorter (lines : list line) :
  forall board player board' extra rest,
    ask_move lines board player = Finished (board', extra, rest) ->
    (length rest < length lines)%nat.
Proof.
  induction lines as [|l lines IH]; intros board player board' extra rest H;
    [discriminate H|].
  cbn [ask_move] in H. cbn [length]. destruct l as [pit|].
  - destruct ((player =? 1) && ((pit <? 0) || (pit >? 5)));
      [apply IH in H; lia|].
    destruct ((player =? 2) && ((pit <? 7) || (pit >? 12)));
      [apply IH in H; lia|].
    destruct (make_move board pit player) as [[[v b1] e]| |];
      try discriminate H.
    destruct v; cbn [negb] in H; [|apply IH in H; lia].
    injection H as _ _ <-. lia.
  - apply IH in H. lia.
Qed.

Lemma ask_move_cases (lines : list line) :
  forall board player,
    game_board board ->
    ask_move lines board player = RaisedEOFError \/
    exists board' extra rest,
      ask_move lines board player = Finished (board', extra, rest) /\
      game_board board'.
Proof.
  induction lines as [|l lines IH]; intros board player Hfit;
    [left; reflexivity|].
  cbn [ask_move]. destruct l as [pit|]; [|now apply IH].
  destruct ((player =? 1) && ((pit <? 0) || (pit >? 5))); [now apply IH|].
  destruct ((player =? 2) && ((pit <? 7) || (pit >? 12))); [now apply IH|].
  destruct Hfit as (Hl & Hn & Hs).
  destruct (make_move_keeps board pit player Hl)
    as (v & b1 & e & -> & Hl1 & Hs1 & Hn1 & _).
  assert (Hfit1 : game_board b1).
  { split; [exact Hl1|]. split; [now apply Hn1|].
    rewrite Hs1; [exact Hs|]. now apply nonneg_at. }
  destruct v; cbn [negb]; [|now apply IH].
  right. exists b1, e, lines. auto.
Qed.

Lemma game_loop_cases (fuel : nat) :
  forall lines board player,
    game_board board -> (length lines < fuel)%nat ->
    game_loop fuel lines board player = RaisedEOFError \/
    exists board',
      game_loop fuel lines board player = Finished board' /\
      game_board board' /\ is_game_over board' = true.
Proof.
  induction fuel as [|fuel IH]; intros lines board player Hfit Hlen; [lia|].
  cbn [game_loop]. destruct (is_game_over board) eqn:Hover; cbn [negb];
    [right; exists board; auto|].
  destruct (ask_move_cases lines board player Hfit)
    as [->|(b1 & e & rest & Hask & Hfit1)]; [left; reflexivity|].
  rewrite Hask. apply ask_move_shorter in Hask.
  destruct e; apply IH; try assumption; lia.
Qed.

(** X10. The driver cannot go wrong: whatever lines [main] is given, it
    either runs out of input ([EOFError]) or finishes; it never raises
    [IndexError] and never loops for ever.  When it finishes, the 12 pits of
    the final board are empty, the two stores are non-negative and hold all
    48 stones, and the winner reported is 1 exactly when store 6 holds more
    than 24, 2 exactly when store 13 holds more than 24, and 0 exactly when
    each holds 24. *)
Theorem main_outcome (lines : list line) :
  main lines = RaisedEOFError \/
  exists b w,
    main lines = Finished (b, w) /\
    (forall i, 0 <= i <= 5 \/ 7 <= i <= 12 -> at_ b i = 0) /\
    0 <= at_ b 6 /\ 0 <= at_ b 13 /\ at_ b 6 + at_ b 13 = 48 /\
    (w = 1 <-> 24 < at_ b 6) /\
    (w = 2 <-> 24 < at_ b 13) /\
    (w = 0 <-> at_ b 6 = 24 /\ at_ b 13 = 24).
Proof.
  unfold main.
  destruct (game_loop_cases (S (length lines)) lines init_board 1
              init_board_shape ltac:(lia))
    as [->|(b1 & -> & (Hl & Hn & Hs) & _)]; [left; reflexivity|].
  right.
  destruct (sweep_then_winner b1 Hl Hs)
    as (b' & w & Hcol & Hwin & Hl' & Hz & Hst & Hw).
  destruct (collect_returns b1 Hl) as (b2 & Hcol2 & _ & _ & Hn2 & _).
  rewrite Hcol in Hcol2. injection Hcol2 as <-.
  rewrite Hcol, Hwin. exists b', w.
  split; [reflexivity|]. split; [exact Hz|].
  split; [now apply nonneg_at, Hn2|].
  split; [now apply nonneg_at, Hn2|]. split; [exact Hst|exact Hw].
Qed.

Lemma ask_move_app (more lines : list line) :
  forall board player board' extra rest,
    ask_move lines board player = Finished (board', extra, rest) ->
    ask_move (lines ++ more) board player =
      Finished (board', extra, rest ++ more).
Proof.
  induction lines as [|l lines IH]; intros board player board' extra rest H;
    [discriminate H|].
  cbn [ask_move app] in *. destruct l as [pit|]; [|now apply IH].
  destruct ((player =? 1) && ((pit <? 0) || (pit >? 5))); [now apply IH|].
  destruct ((player =? 2) && ((pit <? 7) || (pit >? 12))); [now apply IH|].
  destruct (make_move board pit player) as [[[v b1] e]| |];
    try discriminate H.
  destruct v; cbn [negb] in *; [|now apply IH].
  injection H as <- <- <-. reflexivity.
Qed.

Lemma game_loop_app (more : list line) (fuel : nat) :
  forall fuel' lines board player board',
    (fuel <= fuel')%nat ->
    game_loop fuel lines board player = Finished board' ->
    game_loop fuel' (lines ++ more) board player = Finished board'.
Proof.
  induction fuel as [|fuel IH]; intros fuel' lines board player board' Hle H.
  - cbn [game_loop] in H. destruct (is_game_over board) eqn:Hover;
      cbn [negb] in H; [|discriminate H].
    destruct fuel'; cbn [game_loop]; rewrite Hover; exact H.
  - destruct fuel' as [|fuel']; [lia|].
    cbn [game_loop] in *. destruct (is_game_over board); cbn [negb] in *;
      [exact H|].
    destruct (ask_move lines board player) as [[[b1 e] rest]| | |] eqn:Hask;
      try discriminate H.
    rewrite (ask_move_app more lines _ _ _ _ _ Hask).
    destruct e; apply IH; try assumption; lia.
Qed.

(** X11. [main] reads no further than the end of the game: if it finishes
    on some lines, it finishes with the same board and winner when any
    lines follow them. *)
Theorem main_ignores_trailing_input (lines more : list line) (r : list Z * Z) :
  main lines = Finished r -> main (lines ++ more) = Finished r.
Proof.
  unfold main. intros H.
  destruct (game_loop (S (length lines)) lines init_board 1)
    as [b1| | |] eqn:Hloop; try discriminate H.
  rewrite (game_loop_app more (S (length lines)) (S (length (lines ++ more)))
             lines init_board 1 b1); [exact H| |exact Hloop].
  rewrite length_app. lia.
Qed.

Lemma main_ignores_trailing_input_witness :
  let lines := concat (replicate 5 (map Number (seqZ 0 13))) in
  let r := ([0; 0; 0; 0; 0; 0; 12; 0; 0; 0; 0; 0; 0; 36], 2) in
  main lines = Finished r /\
  main (lines ++ [NotANumber; Number 3]) = Finished r.
Proof.
  intros lines r.
  assert (H : main lines = Finished r) by (vm_compute; reflexivity).
  split; [exact H|].
  exact (main_ignores_trailing_input lines [NotANumber; Number 3] r H).
Defined.

Lemma game_loop_budget (fuel : nat) :
  forall fuel' lines board player,
    (length lines < fuel)%nat -> (length lines < fuel')%nat ->
    game_loop fuel lines board player = game_loop fuel' lines board player.
Proof.
  induction fuel as [|fuel IH]; intros fuel' lines board player Hf Hf';
    [lia|].
  destruct fuel' as [|fuel']; [lia|].
  cbn [game_loop]. destruct (is_game_over board); cbn [negb]; [reflexivity|].
  destruct (ask_move lines board player) as [[[b1 e] rest]| | |] eqn:Hask;
    try reflexivity.
  apply ask_move_shorter in Hask.
  destruct e; apply IH; lia.
Qed.

(** [ask_move] on the playable lines alone: the same answer, with the
    playable lines of what is left. *)
Lemma ask_move_playable (lines : list line) :
  forall board player,
    player = 1 \/ player = 2 ->
    ask_move (filter (fun l => playable l = true) lines) board player =
    match ask_move lines board player with
    | Finished (board', extra, rest) =>
        Finished (board', extra, filter (fun l => playable l = true) rest)
    | RaisedEOFError => RaisedEOFError
    | RaisedIndexError => RaisedIndexError
    | NoTermination => NoTermination
    end.
Proof.
  induction lines as [|l lines IH]; intros board player Hp; [reflexivity|].
  destruct l as [pit|]; [|rewrite filter_cons_False by discriminate;
                          now apply IH].
  destruct (playable (Number pit)) eqn:Hplay.
  - rewrite filter_cons_True by exact Hplay. cbn [ask_move].
    destruct ((player =? 1) && ((pit <? 0) || (pit >? 5))); [now apply IH|].
    destruct ((player =? 2) && ((pit <? 7) || (pit >? 12))); [now apply IH|].
    destruct (make_move board pit player) as [[[v b1] e]| |];
      try reflexivity.
    destruct v; cbn [negb]; [reflexivity|now apply IH].
  - rewrite filter_cons_False by (rewrite Hplay; discriminate).
    rewrite IH by exact Hp. cbn [ask_move playable] in *.
    assert (Hskip : (player =? 1) && ((pit <? 0) || (pit >? 5)) = true \/
                    (player =? 1) && ((pit <? 0) || (pit >? 5)) = false /\
                    (player =? 2) && ((pit <? 7) || (pit >? 12)) = true).
    { destruct Hp as [-> | ->]; cbn [Z.eqb Pos.eqb andb];
        [left|right; split; [reflexivity|]];
        destruct (Z.leb_spec 0 pit); destruct (Z.leb_spec pit 5);
        destruct (Z.leb_spec 7 pit); destruct (Z.leb_spec pit 12);
        destruct (Z.ltb_spec pit 0); destruct (Z.gtb_spec pit 5);
        destruct (Z.ltb_spec pit 7); destruct (Z.gtb_spec pit 12);
        cbn [andb orb] in *; try reflexivity; try discriminate; lia. }
    destruct Hskip as [->|[-> ->]]; reflexivity.
Qed.

Lemma game_loop_playable (fuel : nat) :
  forall lines board player,
    player = 1 \/ player = 2 -> (length lines < fuel)%nat ->
    game_loop fuel (filter (fun l => playable l = true) lines) board player =
    game_loop fuel lines board player.
Proof.
  induction fuel as [|fuel IH]; intros lines board player Hp Hlen; [lia|].
  cbn [game_loop]. destruct (is_game_over board); cbn [negb]; [reflexivity|].
  rewrite ask_move_playable by exact Hp.
  destruct (ask_move lines board player) as [[[b1 e] rest]| | |] eqn:Hask;
    try reflexivity.
  apply ask_move_shorter in Hask.
  destruct e; apply IH; try lia; try assumption.
  destruct Hp as [-> | ->]; [right|left]; reflexivity.
Qed.

(** X12. Unusable input changes nothing: lines that are not numbers, and
    numbers outside 0..5 and 7..12, can be removed from the input without
    changing what [main] does: the same final board and winner, or the same
    [EOFError]. *)
Theorem main_skips_unplayable_lines (lines : list line) :
  main (filter (fun l => playable l = true) lines) = main lines.
Proof.
  unfold main.
  set (kept := filter (fun l => playable l = true) lines).
  assert (Hlen : (length kept <= length lines)%nat) by apply length_filter.
  rewrite (game_loop_budget (S (length kept)) (S (length lines)) kept)
    by lia.
  unfold kept. rewrite game_loop_playable; [reflexivity|auto|lia].
Qed.

(** ** The two players have the same rules *)

Lemma board_ext (b c : list Z) :
  length b = 14%nat -> length c = 14%nat ->
  (forall j, 0 <= j < 14 -> at_ b j = at_ c j) -> b = c.
Proof.
  intros Hb Hc H.
  destruct (board14 b Hb)
    as (x0 & x1 & x2 & x3 & x4 & x5 & x6 & x7 & x8 & x9 & x10 & x11 & x12
        & x13 & ->).
  destruct (board14 c Hc)
    as (y0 & y1 & y2 & y3 & y4 & y5 & y6 & y7 & y8 & y9 & y10 & y11 & y12
        & y13 & ->).
  pose proof (H 0 ltac:(lia)) as H0. pose proof (H 1 ltac:(lia)) as H1.
  pose proof (H 2 ltac:(lia)) as H2. pose proof (H 3 ltac:(lia)) as H3.
  pose proof (H 4 ltac:(lia)) as H4. pose proof (H 5 ltac:(lia)) as H5.
  pose proof (H 6 ltac:(lia)) as H6. pose proof (H 7 ltac:(lia)) as H7.
  pose proof (H 8 ltac:(lia)) as H8. pose proof (H 9 ltac:(lia)) as H9.
  pose proof (H 10 ltac:(lia)) as H10. pose proof (H 11 ltac:(lia)) as H11.
  pose proof (H 12 ltac:(lia)) as H12. pose proof (H 13 ltac:(lia)) as H13.
  change (x0 = y0) in H0. change (x1 = y1) in H1. change (x2 = y2) in H2.
  change (x3 = y3) in H3. change (x4 = y4) in H4. change (x5 = y5) in H5.
  change (x6 = y6) in H6. change (x7 = y7) in H7. change (x8 = y8) in H8.
  change (x9 = y9) in H9. change (x10 = y10) in H10.
  change (x11 = y11) in H11. change (x12 = y12) in H12.
  change (x13 = y13) in H13. congruence.
Qed.

Lemma length_turn_board (b : list Z) :
  length b = 14%nat -> length (turn_board b) = 14%nat.
Proof.
  intros Hb. unfold turn_board.
  rewrite length_app, length_drop, length_take. lia.
Qed.

Lemma at_turn_board (b : list Z) (j : Z) :
  length b = 14%nat -> 0 <= j < 14 ->
  at_ (turn_board b) j = at_ b ((j + 7) mod 14).
Proof.
  intros Hb Hj.
  destruct (board14 b Hb)
    as (x0 & x1 & x2 & x3 & x4 & x5 & x6 & x7 & x8 & x9 & x10 & x11 & x12
        & x13 & ->).
  assert (Hc : j = 0 \/ j = 1 \/ j = 2 \/ j = 3 \/ j = 4 \/ j = 5 \/
               j = 6 \/ j = 7 \/ j = 8 \/ j = 9 \/ j = 10 \/ j = 11 \/
               j = 12 \/ j = 13) by lia.
  repeat (destruct Hc as [->|Hc]); try subst j; reflexivity.
Qed.

(** From a pit with nothing to sow the loop does not run. *)
Lemma sow_nothing (b : list Z) (pit player : Z) :
  length b = 14%nat -> 0 <= pit < 14 -> at_ b pit <= 0 ->
  sow b pit player = Return (upd b pit 0, pit).
Proof.
  intros Hb Hpit Hs. unfold sow. run_board.
  destruct (loop_budget (at_ b pit)); cbn [while_loop snd];
    destruct (Z.gtb_spec (at_ b pit) 0); try lia; reflexivity.
Qed.

Lemma deposits_turned (pit stones j : Z) :
  0 <= pit <= 5 -> 0 <= j < 14 ->
  deposits 2 (pit + 7) stones j = deposits 1 pit stones ((j + 7) mod 14).
Proof.
  intros Hpit Hj. unfold deposits, skips, rank.
  cbn [Z.eqb Pos.eqb andb orb]. rewrite orb_false_r.
  replace ((pit + 7 + 7) mod 14) with pit by (Z.div_mod_to_equations; lia).
  destruct (Z.eqb_spec j 6) as [->|Hne].
  - reflexivity.
  - destruct (Z.eqb_spec ((j + 7) mod 14) 13) as [E|_]; [|reflexivity].
    exfalso. revert E. Z.div_mod_to_equations. lia.
Qed.

Lemma sow_turned (b : list Z) (pit : Z) :
  length b = 14%nat -> 0 <= pit <= 5 -> at_ b pit <> 0 ->
  exists bs idx,
    sow b pit 1 = Return (bs, idx) /\
    sow (turn_board b) (pit + 7) 2 =
      Return (turn_board bs, (idx + 7) mod 14) /\
    length bs = 14%nat /\ 0 <= idx < 14.
Proof.
  intros Hb Hpit Hne.
  pose proof (length_turn_board b Hb) as Hb2.
  assert (Hat : at_ (turn_board b) (pit + 7) = at_ b pit).
  { rewrite at_turn_board by lia. f_equal. Z.div_mod_to_equations. lia. }
  destruct (Z.le_gt_cases (at_ b pit) 0) as [Hle|Hpos].
  - exists (upd b pit 0), pit.
    split; [apply sow_nothing; lia|].
    split; [|split; [now rewrite length_upd|lia]].
    rewrite sow_nothing by lia. f_equal. f_equal.
    + apply board_ext.
      * now rewrite length_upd.
      * apply length_turn_board. now rewrite length_upd.
      * intros j Hj. rewrite at_turn_board by (rewrite ?length_upd; lia).
        rewrite !at_upd by (try apply Z.mod_pos_bound; lia).
        rewrite at_turn_board by lia.
        destruct (Z.eqb_spec j (pit + 7));
          destruct (Z.eqb_spec ((j + 7) mod 14) pit); try reflexivity;
          exfalso; Z.div_mod_to_equations; lia.
    + Z.div_mod_to_equations. lia.
  - assert (Href1 : refused b pit 1 = Return false).
    { rewrite (refused_is_invalid b pit 1 Hb). unfold is_invalid.
      destruct (Z.ltb_spec pit 0); destruct (Z.gtb_spec pit 5);
        destruct (Z.eqb_spec (at_ b pit) 0); try lia. reflexivity. }
    assert (Href2 : refused (turn_board b) (pit + 7) 2 = Return false).
    { rewrite (refused_is_invalid _ (pit + 7) 2 Hb2). unfold is_invalid.
      rewrite Hat.
      destruct (Z.ltb_spec (pit + 7) 7); destruct (Z.gtb_spec (pit + 7) 12);
        destruct (Z.eqb_spec (at_ b pit) 0); try lia. reflexivity. }
    destruct (sow_closed_form b pit 1 Hb (or_introl eq_refl) Href1 Hpos)
      as (bs1 & Hsow1 & Hbs1 & Hidx1 & _ & Hcnt1).
    destruct (sow_closed_form (turn_board b) (pit + 7) 2 Hb2
                (or_intror eq_refl) Href2 ltac:(lia))
      as (bs2 & Hsow2 & Hbs2 & _ & _ & Hcnt2).
    rewrite Hat in Hsow2, Hcnt2.
    exists bs1, (landing 1 pit (at_ b pit)).
    split; [exact Hsow1|]. split; [|split; assumption].
    rewrite Hsow2. f_equal. f_equal.
    + apply board_ext; [exact Hbs2|now apply length_turn_board|].
      intros j Hj. rewrite at_turn_board by assumption.
      assert (Hj' : 0 <= (j + 7) mod 14 < 14)
        by (apply Z.mod_pos_bound; lia).
      rewrite (Hcnt2 j Hj), (Hcnt1 _ Hj'), at_turn_board by assumption.
      rewrite deposits_turned by lia.
      destruct (Z.eqb_spec j (pit + 7));
        destruct (Z.eqb_spec ((j + 7) mod 14) pit); try reflexivity;
        exfalso; Z.div_mod_to_equations; lia.
    + unfold landing. cbn [Z.eqb Pos.eqb].
      replace (pit + 7 - 7 + at_ b pit) with (pit + at_ b pit) by lia.
      reflexivity.
Qed.

Lemma captured_turned (bs : list Z) (idx : Z) :
  length bs = 14%nat -> 0 <= idx <= 5 ->
  captured 13 (turn_board bs) (idx + 7) = turn_board (captured 6 bs idx).
Proof.
  intros Hbs Hidx.
  pose proof (length_turn_board bs Hbs) as Hbs2.
  assert (Hc6 : length (captured 6 bs idx) = 14%nat)
    by (apply captured_length; assumption).
  apply board_ext.
  - apply captured_length. exact Hbs2.
  - now apply length_turn_board.
  - intros j Hj.
    assert (Hj' : 0 <= (j + 7) mod 14 < 14) by (apply Z.mod_pos_bound; lia).
    rewrite at_turn_board by assumption.
    rewrite (captured_at (turn_board bs) (idx + 7) 13 Hbs2) by lia.
    rewrite (captured_at bs idx 6 Hbs) by lia.
    rewrite !at_turn_board by lia.
    replace ((13 + 7) mod 14) with 6 by reflexivity.
    replace ((12 - (idx + 7) + 7) mod 14) with (12 - idx)
      by (Z.div_mod_to_equations; lia).
    destruct (Z.eqb_spec j (12 - (idx + 7)));
      destruct (Z.eqb_spec ((j + 7) mod 14) (12 - idx));
      destruct (Z.eqb_spec j (idx + 7));
      destruct (Z.eqb_spec ((j + 7) mod 14) idx);
      destruct (Z.eqb_spec j 13);
      destruct (Z.eqb_spec ((j + 7) mod 14) 6);
      try reflexivity; exfalso; Z.div_mod_to_equations; lia.
Qed.

Lemma capture_result_turned (bs : list Z) (idx : Z) :
  length bs = 14%nat -> 0 <= idx < 14 ->
  capture_result (turn_board bs) ((idx + 7) mod 14) 2 =
  turn_board (capture_result bs idx 1).
Proof.
  intros Hbs Hidx.
  assert (Hi2 : 0 <= (idx + 7) mod 14 < 14) by (apply Z.mod_pos_bound; lia).
  unfold capture_result, Py.in_range. cbn [Z.eqb Pos.eqb andb].
  destruct (Z.leb_spec 0 idx); [|lia]. cbn [andb].
  destruct (Z.ltb_spec idx 6) as [Hlt|Hge]; cbn [andb].
  - replace ((idx + 7) mod 14) with (idx + 7)
      by (Z.div_mod_to_equations; lia).
    destruct (Z.leb_spec 7 (idx + 7)); [|lia].
    destruct (Z.ltb_spec (idx + 7) 13); [|lia]. cbn [andb].
    rewrite !at_turn_board by lia.
    replace ((idx + 7 + 7) mod 14) with idx
      by (Z.div_mod_to_equations; lia).
    replace ((12 - (idx + 7) + 7) mod 14) with (12 - idx)
      by (Z.div_mod_to_equations; lia).
    destruct (at_ bs idx =? 1); [|reflexivity].
    destruct (at_ bs (12 - idx) >? 0); [|reflexivity].
    apply captured_turned; [assumption|lia].
  - destruct (Z.leb_spec 7 ((idx + 7) mod 14));
      destruct (Z.ltb_spec ((idx + 7) mod 14) 13); cbn [andb];
      try reflexivity.
    exfalso. Z.div_mod_to_equations. lia.
Qed.

Lemma make_move_turned (b : list Z) (pit : Z) :
  length b = 14%nat ->
  exists v b' e,
    make_move b pit 1 = Return (v, b', e) /\
    make_move (turn_board b) (pit + 7) 2 = Return (v, turn_board b', e).
Proof.
  intros Hb.
  pose proof (length_turn_board b Hb) as Hb2.
  destruct (is_invalid b pit 1) eqn:Hv.
  - exists false, b, false. split; [now apply make_move_invalid|].
    apply make_move_invalid; [exact Hb2|].
    unfold is_invalid in *. cbn [Z.eqb Pos.eqb] in *.
    destruct (Z.ltb_spec pit 0); destruct (Z.gtb_spec pit 5);
      destruct (Z.ltb_spec (pit + 7) 7); destruct (Z.gtb_spec (pit + 7) 12);
      cbn [orb] in *; try reflexivity; try lia.
    rewrite at_turn_board by lia.
    replace ((pit + 7 + 7) mod 14) with pit
      by (Z.div_mod_to_equations; lia).
    exact Hv.
  - destruct (is_invalid_false b pit 1 Hv) as (_ & Hne & Hown).
    assert (Hpit : 0 <= pit <= 5) by lia.
    destruct (sow_turned b pit Hb Hpit Hne)
      as (bs & idx & Hsow1 & Hsow2 & Hbs & Hidx).
    assert (Hv2 : is_invalid (turn_board b) (pit + 7) 2 = false).
    { unfold is_invalid. cbn [Z.eqb Pos.eqb].
      rewrite at_turn_board by lia.
      replace ((pit + 7 + 7) mod 14) with pit
        by (Z.div_mod_to_equations; lia).
      destruct (Z.ltb_spec (pit + 7) 7); destruct (Z.gtb_spec (pit + 7) 12);
        destruct (Z.eqb_spec (at_ b pit) 0); first [lia|reflexivity]. }
    exists true, (capture_result bs idx 1), (extra_turn_flag idx 1).
    split; [now apply make_move_from_sow|].
    rewrite (make_move_from_sow _ _ _ _ _ Hb2 Hv2 Hsow2
               (length_turn_board bs Hbs)
               ltac:(apply Z.mod_pos_bound; lia)).
    rewrite capture_result_turned by assumption.
    do 2 f_equal. unfold extra_turn_flag. cbn [Z.eqb Pos.eqb andb orb].
    rewrite orb_false_r.
    destruct (Z.eqb_spec idx 6); destruct (Z.eqb_spec ((idx + 7) mod 14) 13);
      try reflexivity; exfalso; Z.div_mod_to_equations; lia.
Qed.

(** X13. The two players have the same rules: on a 14-position board, what
    [make_move] does for Player 2 at pit [pit + 7] on the board seen from
    the other side is what it does for Player 1 at [pit] on the board
    itself: the same validity flag and extra-turn flag, and the returned
    board is the other one turned.  Turning a board twice gives it back. *)
Theorem players_have_the_same_rules (b : list Z) (pit : Z) :
  length b = 14%nat ->
  turn_board (turn_board b) = b /\
  exists v b' e,
    make_move b pit 1 = Return (v, b', e) /\
    make_move (turn_board b) (pit + 7) 2 = Return (v, turn_board b', e).
Proof.
  intros Hb. split; [|now apply make_move_turned].
  destruct (board14 b Hb)
    as (x0 & x1 & x2 & x3 & x4 & x5 & x6 & x7 & x8 & x9 & x10 & x11 & x12
        & x13 & ->).
  reflexivity.
Qed.

Lemma players_have_the_same_rules_witness :
  let b := [13; 0; 0; 0; 0; 0; 5; 0; 0; 0; 3; 0; 1; 26] in
  length b = 14%nat /\
  exists v b' e,
    make_move b 0 1 = Return (v, b', e) /\
    make_move [0; 0; 0; 3; 0; 1; 26; 13; 0; 0; 0; 0; 0; 5] 7 2 =
      Return (v, turn_board b', e).
Proof.
  intros b. split; [reflexivity|].
  exact (proj2 (players_have_the_same_rules b 0 eq_refl)).
Defined.

(** X14. The end of the game is the same for both players: on a
    14-position board, [is_game_over] gives the same answer on the board
    seen from the other side, [collect_remaining_stones] returns the turned
    result, and [get_winner] names the other player (a tie stays a tie). *)
Theorem end_of_game_is_symmetric (b : list Z) :
  length b = 14%nat ->
  is_game_over (turn_board b) = is_game_over b /\
  (exists b',
     collect_remaining_stones b = Return b' /\
     collect_remaining_stones (turn_board b) = Return (turn_board b')) /\
  (exists w,
     get_winner b = Return w /\
     get_winner (turn_board b) = Return (if w =? 0 then 0 else 3 - w)).
Proof.
  intros Hb.
  pose proof (length_turn_board b Hb) as Hb2.
  split; [|split].
  - destruct (board14 b Hb)
      as (x0 & x1 & x2 & x3 & x4 & x5 & x6 & x7 & x8 & x9 & x10 & x11 & x12
          & x13 & ->).
    unfold is_game_over, turn_board, Py.slice. cbn [drop take app].
    rewrite orb_comm. reflexivity.
  - destruct (board14 b Hb)
      as (x0 & x1 & x2 & x3 & x4 & x5 & x6 & x7 & x8 & x9 & x10 & x11 & x12
          & x13 & ->).
    eexists. split; [apply collect_board14|]. reflexivity.
  - rewrite (get_winner_returns b Hb), (get_winner_returns _ Hb2).
    rewrite !at_turn_board by lia.
    change ((6 + 7) mod 14) with 13. change ((13 + 7) mod 14) with 6.
    eexists. split; [reflexivity|].
    destruct (Z.gtb_spec (at_ b 6) (at_ b 13));
      destruct (Z.gtb_spec (at_ b 13) (at_ b 6)); try lia; reflexivity.
Qed.

Lemma end_of_game_is_symmetric_witness :
  let b := [0; 0; 0; 0; 0; 0; 21; 1; 0; 2; 0; 0; 4; 20] in
  length b = 14%nat /\
  is_game_over [1; 0; 2; 0; 0; 4; 20; 0; 0; 0; 0; 0; 0; 21] =
    is_game_over b.
Proof.
  intros b. split; [reflexivity|].
  exact (proj1 (end_of_game_is_symmetric b eq_refl)).
Defined.

(** X15. An extra turn and a capture never come together: for any move
    that passes validation on a 14-position board, whatever the player
    value, if [make_move] grants the extra turn then the board it returns is
    the board as sown, and if a capture changed the sown board then no extra
    turn is granted. *)
Theorem extra_turn_excludes_capture (b : list Z) (pit player : Z) :
  length b = 14%nat -> refused b pit player = Return false ->
  exists bs idx b' e,
    sow b pit player = Return (bs, idx) /\
    make_move b pit player = Return (true, b', e) /\
    (e = true -> b' = bs) /\
    (b' <> bs -> e = false).
Proof.
  intros Hb Href.
  assert (Hv : is_invalid b pit player = false).
  { rewrite (refused_is_invalid b pit player Hb) in Href.
    now injection Href. }
  destruct (make_move_valid b pit player Hb (fun _ => True) Hv)
    as (bs & idx & s' & Hsow & Hmove & _); [auto|exact I|].
  exists bs, idx, (capture_result bs idx player),
    (extra_turn_flag idx player).
  split; [exact Hsow|]. split; [exact Hmove|].
  assert (H : extra_turn_flag idx player = true ->
              capture_result bs idx player = bs).
  { intros He.
    destruct (capture_result_cases bs idx player)
      as [(store & Hf & _)|[_ ->]]; [|reflexivity].
    exfalso. unfold fires in Hf. unfold extra_turn_flag in He.
    destruct (Z.eqb_spec player 1); destruct (Z.eqb_spec player 2);
      destruct (Z.eqb_spec idx 6); destruct (Z.eqb_spec idx 13);
      cbn [andb orb] in He; try discriminate He; lia. }
  split; [exact H|].
  intros Hne. destruct (extra_turn_flag idx player); [|reflexivity].
  exfalso. apply Hne. now apply H.
Qed.

Lemma extra_turn_excludes_capture_witness :
  length init_board = 14%nat /\ refused init_board 2 1 = Return false /\
  exists bs idx b' e,
    sow init_board 2 1 = Return (bs, idx) /\
    make_move init_board 2 1 = Return (true, b', e) /\
    (e = true -> b' = bs) /\ (b' <> bs -> e = false).
Proof.
  split; [reflexivity|]. split; [reflexivity|].
  exact (extra_turn_excludes_capture init_board 2 1 eq_refl eq_refl).
Defined.
